(** * The authenticated request wrapper ([utils/api.ts])

    A shallow embedding of [fetchWithAuth] and of the four helpers built on
    it ([getWithAuth], [postWithAuth], [putWithAuth], [deleteWithAuth]),
    followed by the properties the specification states about them.

    The wrapper is an [async] function talking to two collaborators: the
    Supabase auth client ([getSession], [refreshSession], [signOut]) and the
    platform's [fetch].  Every [await] is a point where a collaborator is
    called; a call either resolves with a value or rejects with an exception.
    The embedding threads an abstract world state through these calls and
    records each call in a log, so that "how many network calls were made"
    is a statement about the log. *)

From stdpp Require Import base option list strings pretty gmap fin_maps.
From Stdlib Require Import ZArith.

Set Warnings "-register-all".
Local Open Scope string_scope.
Local Open Scope Z_scope.

(** ** Data *)

(** JavaScript exception objects: a constructor name and a message. *)
Record JsError := MkJsError { name : string; message : string }.

(** [new Error(msg)] *)
Definition Error (msg : string) : JsError :=
  {| name := "Error"; message := msg |}.

(** What [fetch] rejects with when the transport fails. *)
Definition TypeError (msg : string) : JsError :=
  {| name := "TypeError"; message := msg |}.

(** The auth client's session object; [access_token: string] in its typings. *)
Record Session := MkSession { access_token : string; user_id : string }.

(** [{ data: { session }, error }], the shape both [getSession] and
    [refreshSession] resolve with. *)
Record SessionData := MkSessionData { session : option Session }.
Record AuthResponse := MkAuthResponse {
  data : SessionData;
  error : option JsError
}.

(** [signOut] resolves with [{ error }]. *)
Record SignOutResponse := MkSignOutResponse { signout_error : option JsError }.

(** A property value of a headers object.  Spreading a [string[][]] puts
    arrays under index keys, hence the second constructor. *)
Inductive HeaderValue :=
| HStr (s : string)
| HArr (xs : list string).

(** [HeadersInit = Record<string, string> | Headers | string[][]] *)
Inductive HeadersInit :=
| HeadersRecord (r : gmap string HeaderValue)
| HeadersInstance (entries : list (string * string))
| HeadersPairs (ps : list (list string)).

(** The fields of [RequestInit] the wrapper and its callers use. *)
Record RequestInit := MkRequestInit {
  method : option string;
  headers : option HeadersInit;
  body : option string
}.

Record Response := MkResponse {
  status : Z;
  statusText : string;
  payload : string
}.

(** Values a caller may pass as [body?: any].  Numbers are the integers;
    cyclic objects, functions and bigints are left out. *)
Inductive JsValue :=
| JsUndefined
| JsNull
| JsBool (b : bool)
| JsNumber (n : Z)
| JsString (s : string)
| JsArray (xs : list JsValue)
| JsObject (fields : list (string * JsValue)).

(** ** Promises and the call log *)

(** What a promise settles to. *)
Inductive Settled (E A : Type) :=
| Resolved (a : A)
| Rejected (e : E).
Arguments Resolved {E A} a.
Arguments Rejected {E A} e.

(** One entry per call made to a collaborator. *)
Inductive Event :=
| CallGetSession
| CallFetch (url : string) (init : RequestInit)
| CallRefreshSession
| CallSignOut.

(** What the wrapper's own promise rejects with: either an error object the
    wrapper created and threw itself, or the exception of an awaited call
    that rejected and was not caught.  The two are different objects in
    JavaScript, whatever their messages. *)
Inductive Exception :=
| Thrown (e : JsError)
| Escaped (call : Event) (e : JsError).

(** A collaborator's promise, and the wrapper's. *)
Abbreviation Reply := (Settled JsError).
Abbreviation Outcome := (Settled Exception).

(** The collaborators, over a world state [W] that they may read and
    change (token store, server state, network conditions). *)
Record Env (W : Type) := MkEnv {
  getSession : W → Reply AuthResponse * W;
  refreshSession : W → Reply AuthResponse * W;
  signOut : W → Reply SignOutResponse * W;
  fetch : string → RequestInit → W → Reply Response * W
}.
Arguments getSession {W} _ _.
Arguments refreshSession {W} _ _.
Arguments signOut {W} _ _.
Arguments fetch {W} _ _ _ _.

(** An [async] computation: from a world to an outcome, the new world and
    the calls made on the way. *)
Definition Async (W A : Type) : Type := W → Outcome A * W * list Event.

Definition async_ret {W A} (a : A) : Async W A :=
  λ w, (Resolved a, w, []).

(** [throw e] *)
Definition throw {W A} (e : JsError) : Async W A :=
  λ w, (Rejected (Thrown e), w, []).

Definition async_bind {W A B} (m : Async W A) (k : A → Async W B) : Async W B :=
  λ w,
    match m w with
    | (Resolved a, w1, t1) =>
        match k a w1 with
        | (o, w2, t2) => (o, w2, (t1 ++ t2)%list)
        end
    | (Rejected e, w1, t1) => (Rejected e, w1, t1)
    end.

(** [await callee(...)]: make the call, log it, and continue with what it
    resolved with; a rejection escapes, as no call is inside a [try]. *)
Definition await {W A} (ev : Event) (callee : W → Reply A * W) : Async W A :=
  λ w,
    match callee w with
    | (Resolved a, w1) => (Resolved a, w1, [ev])
    | (Rejected e, w1) => (Rejected (Escaped ev e), w1, [ev])
    end.

Declare Scope async_scope.
Delimit Scope async_scope with async.
Notation "'let*' x ':=' m 'in' k" := (async_bind m (λ x, k))
  (at level 10, x binder, m at level 100, k at level 200)
  : async_scope.
Local Open Scope async_scope.

(** Projections of a finished run. *)
Definition outcome {W A} (r : Outcome A * W * list Event) : Outcome A := r.1.1.
Definition world {W A} (r : Outcome A * W * list Event) : W := r.1.2.
Definition calls {W A} (r : Outcome A * W * list Event) : list Event := r.2.

(** ** JavaScript helpers *)

(** [ToBoolean] on the modelled values. *)
Definition truthy (v : JsValue) : bool :=
  match v with
  | JsUndefined | JsNull => false
  | JsBool b => b
  | JsNumber n => negb (n =? 0)
  | JsString EmptyString => false
  | JsString _ => true
  | JsArray _ | JsObject _ => true
  end.

(** Own enumerable properties, as object spread [{...h}] copies them: a
    plain record gives its entries, a [Headers] instance keeps its entries
    in internal slots and gives none, an array gives its elements under
    their indices, and [undefined] gives none. *)
Definition spread (h : option HeadersInit) : gmap string HeaderValue :=
  match h with
  | None => ∅
  | Some (HeadersRecord r) => r
  | Some (HeadersInstance _) => ∅
  | Some (HeadersPairs ps) =>
      list_to_map (imap (λ (i : nat) p, (pretty i, HArr p)) ps)
  end.

(** ** Counting calls in a log *)

(** The arguments of the network calls, in order. *)
Definition request_of (ev : Event) : option (string * RequestInit) :=
  match ev with
  | CallFetch url init => Some (url, init)
  | _ => None
  end.

Definition requests (t : list Event) : list (string * RequestInit) :=
  omap request_of t.

Definition is_refresh (ev : Event) : bool :=
  match ev with CallRefreshSession => true | _ => false end.

Definition is_signOut (ev : Event) : bool :=
  match ev with CallSignOut => true | _ => false end.

Definition network_calls (t : list Event) : nat := length (requests t).
Definition refresh_calls (t : list Event) : nat := length (List.filter is_refresh t).
Definition signOut_calls (t : list Event) : nat := length (List.filter is_signOut t).

(** ** The wrapper *)

Definition msg_session_failed : string :=
  "Failed to get session. Please login again.".
Definition msg_no_token : string :=
  "No access token available. Please login again.".
Definition msg_session_expired : string :=
  "Session expired. Please login again.".

(** The object literal
    [{ ...options.headers, 'Authorization': `Bearer ${accessToken}`,
       'Content-Type': 'application/json' }]. *)
Definition auth_headers (options : RequestInit) (accessToken : string)
  : gmap string HeaderValue :=
  <["Content-Type" := HStr "application/json"]>
    (<["Authorization" := HStr ("Bearer " ++ accessToken)]>
       (spread (headers options))).

(** [{ ...options, headers }] *)
Definition with_headers (options : RequestInit) (h : gmap string HeaderValue)
  : RequestInit :=
  {| method := method options;
     headers := Some (HeadersRecord h);
     body := body options |}.

(** The specification's names for the failures the wrapper raises itself. *)
Definition SessionUnavailable : Exception := Thrown (Error msg_session_failed).
Definition NoCredential : Exception := Thrown (Error msg_no_token).
Definition SessionExpired : Exception := Thrown (Error msg_session_expired).

(** [NetworkError]: the exception of a [fetch] that rejected, as is. *)
Definition NetworkError (url : string) (init : RequestInit) (e : JsError)
  : Exception :=
  Escaped (CallFetch url init) e.

Section Wrapper.
Context {W : Type}.
Variable env : Env W.

(** [fetchWithAuth(url, options)].  Console output is not modelled. *)
Definition fetchWithAuth (url : string) (options : RequestInit)
  : Async W Response :=
  let* r := await CallGetSession (getSession env) in
  let sessionData := data r in
  let sessionError := error r in
  if sessionError is Some _ then throw (Error msg_session_failed) else
  match access_token <$> session sessionData with
  | None | Some EmptyString => throw (Error msg_no_token)
  | Some accessToken =>
      let headers := auth_headers options accessToken in
      let init := with_headers options headers in
      let* response := await (CallFetch url init) (fetch env url init) in
      if status response =? 401 then
        let* rr := await CallRefreshSession (refreshSession env) in
        let refreshData := data rr in
        (* if (error || !refreshData.session) *)
        match error rr, session refreshData with
        | None, Some s =>
            let accessToken := access_token s in
            let newHeaders := auth_headers options accessToken in
            let init' := with_headers options newHeaders in
            let* response :=
              await (CallFetch url init') (fetch env url init') in
            async_ret response
        | _, _ =>
            let* _ := await CallSignOut (signOut env) in
            throw (Error msg_session_expired)
        end
      else async_ret response
  end.

End Wrapper.

(** ** The helpers *)

Section Helpers.
Context {W : Type}.
Variable env : Env W.
(** [projectId], imported from [./supabase/info]. *)
Variable projectId : string.
(** The runtime's [JSON.stringify] on the modelled values. *)
Variable JSON_stringify : JsValue → string.

(** [`https://${projectId}.supabase.co/functions/v1/make-server-b017b546${path}`] *)
Definition endpoint (path : string) : string :=
  "https://" ++ projectId
    ++ ".supabase.co/functions/v1/make-server-b017b546" ++ path.

(** [{ 'Content-Type': 'application/json' }] *)
Definition json_headers : HeadersInit :=
  HeadersRecord {[ "Content-Type" := HStr "application/json" ]}.

(** [body ? JSON.stringify(body) : undefined] *)
Definition encode_body (body : JsValue) : option string :=
  if truthy body then Some (JSON_stringify body) else None.

(** An omitted [body?] parameter is [JsUndefined]. *)
Definition postWithAuth (path : string) (body : JsValue) : Async W Response :=
  fetchWithAuth env (endpoint path)
    {| method := Some "POST";
       headers := Some json_headers;
       body := encode_body body |}.

Definition getWithAuth (path : string) : Async W Response :=
  fetchWithAuth env (endpoint path)
    {| method := Some "GET"; headers := None; body := None |}.

Definition deleteWithAuth (path : string) : Async W Response :=
  fetchWithAuth env (endpoint path)
    {| method := Some "DELETE"; headers := None; body := None |}.

Definition putWithAuth (path : string) (body : JsValue) : Async W Response :=
  fetchWithAuth env (endpoint path)
    {| method := Some "PUT";
       headers := Some json_headers;
       body := encode_body body |}.

End Helpers.


(** ** The words of the specification

    The specification speaks of a call "whose first attempt returns 401", of
    a refresh that "succeeds with a session", of headers "merged" and of a
    body that is "present".  These are the same notions over the embedding. *)

(** The request the wrapper sends when it holds the credential [tok]. *)
Definition attempt (options : RequestInit) (tok : string) : RequestInit :=
  with_headers options (auth_headers options tok).

(** Session retrieval succeeds with a credential: [getSession] resolves
    without an error and with a session whose token is a non-empty string. *)
Definition session_with_credential {W} (env : Env W) (w0 : W) (tok : string)
    (w1 : W) : Prop :=
  ∃ r0, getSession env w0 = (Resolved r0, w1)
        ∧ error r0 = None
        ∧ access_token <$> session (data r0) = Some tok
        ∧ tok ≠ EmptyString.

(** The first attempt comes back with status 401. *)
Definition first_attempt_unauthorized {W} (env : Env W) (url : string)
    (options : RequestInit) (w0 : W) (tok : string) (w2 : W) : Prop :=
  ∃ w1 resp1, session_with_credential env w0 tok w1
              ∧ fetch env url (attempt options tok) w1 = (Resolved resp1, w2)
              ∧ status resp1 = 401.

(** The refresh succeeds with a session. *)
Definition refresh_succeeds {W} (env : Env W) (w2 : W) (s : Session) (w3 : W)
  : Prop :=
  ∃ rr, refreshSession env w2 = (Resolved rr, w3)
        ∧ error rr = None
        ∧ session (data rr) = Some s.

(** The refresh reports an error or yields no session. *)
Definition refresh_fails {W} (env : Env W) (w2 w3 : W) : Prop :=
  ∃ rr, refreshSession env w2 = (Resolved rr, w3)
        ∧ (is_Some (error rr) ∨ session (data rr) = None).

(** The caller's headers with the injected ones laid over them: the two
    injected keys hold the injected values, every other key holds what the
    caller gave it. *)
Definition injected_over (caller sent : gmap string HeaderValue) (tok : string)
  : Prop :=
  sent !! "Authorization" = Some (HStr ("Bearer " ++ tok))
  ∧ sent !! "Content-Type" = Some (HStr "application/json")
  ∧ ∀ k, k ≠ "Authorization" → k ≠ "Content-Type" → sent !! k = caller !! k.

(** An optional parameter that was supplied: anything but [undefined]. *)
Definition supplied (body : JsValue) : bool :=
  match body with
  | JsUndefined => false
  | _ => true
  end.

(** Options that bind the method and the body and nothing else. *)
Definition bound (m : string) (b : option string) : RequestInit :=
  {| method := Some m; headers := None; body := b |}.

Section HelpersSpec.
Context {W : Type}.
Variable env : Env W.
Variable projectId : string.
Variable JSON_stringify : JsValue → string.

(** The helpers as the specification words them: [request] with the method
    fixed and, for [post] and [put], the body JSON-encoded when one is
    supplied and absent otherwise. *)
Definition spec_get (path : string) : Async W Response :=
  fetchWithAuth env (endpoint projectId path) (bound "GET" None).

Definition spec_delete (path : string) : Async W Response :=
  fetchWithAuth env (endpoint projectId path) (bound "DELETE" None).

Definition spec_post (path : string) (body : JsValue) : Async W Response :=
  fetchWithAuth env (endpoint projectId path)
    (bound "POST" (if supplied body then Some (JSON_stringify body) else None)).

Definition spec_put (path : string) (body : JsValue) : Async W Response :=
  fetchWithAuth env (endpoint projectId path)
    (bound "PUT" (if supplied body then Some (JSON_stringify body) else None)).

End HelpersSpec.

(** ** A scripted environment

    Collaborators that answer from a script: the auth client gives fixed
    replies, and [fetch] hands out the replies of a list in order, the world
    being what is left of the list.  With the script exhausted the network
    is down. *)

Definition scripted (gs rf : Reply AuthResponse) (so : Reply SignOutResponse)
  : Env (list (Reply Response)) :=
  {| getSession := λ w, (gs, w);
     refreshSession := λ w, (rf, w);
     signOut := λ w, (so, w);
     fetch := λ _ _ w,
       match w with
       | r :: w' => (r, w')
       | [] => (Rejected (TypeError "Failed to fetch"), [])
       end |}.

Definition session_of (tok : string) : Session :=
  {| access_token := tok; user_id := "u1" |}.

Definition has_session (tok : string) : Reply AuthResponse :=
  Resolved {| data := {| session := Some (session_of tok) |}; error := None |}.

Definition no_session : Reply AuthResponse :=
  Resolved {| data := {| session := None |}; error := None |}.

Definition auth_error (msg : string) : AuthResponse :=
  {| data := {| session := None |};
     error := Some {| name := "AuthError"; message := msg |} |}.

Definition signed_out : Reply SignOutResponse :=
  Resolved {| signout_error := None |}.

Definition response (code : Z) : Response :=
  {| status := code; statusText := EmptyString; payload := "{}" |}.

Definition responds (code : Z) : Reply Response := Resolved (response code).

(** A caller who tries to pass an [Authorization] header of its own. *)
Definition demo_headers : gmap string HeaderValue :=
  {[ "Authorization" := HStr "Bearer forged"; "X-Trace" := HStr "1" ]}.

Definition demo_options : RequestInit :=
  {| method := Some "POST";
     headers := Some (HeadersRecord demo_headers);
     body := Some "{}" |}.

(** An encoder for the examples: right on the integers and on the empty
    object, which is all they send. *)
Definition demo_stringify (v : JsValue) : string :=
  match v with
  | JsNumber n => pretty n
  | _ => "{}"
  end.

(** The session is there, the refresh works. *)
Definition env_refresh_works : Env (list (Reply Response)) :=
  scripted (has_session "tokA") (has_session "tokB") signed_out.

(** The session is there, the refresh yields none. *)
Definition env_refresh_fails : Env (list (Reply Response)) :=
  scripted (has_session "tokA") no_session signed_out.

(** As before, and [signOut] rejects, as when the client cannot reach its
    storage. *)
Definition env_signOut_rejects : Env (list (Reply Response)) :=
  scripted (has_session "tokA") no_session
    (Rejected (Error "storage unavailable")).

(** [getSession] reports an error. *)
Definition env_session_error : Env (list (Reply Response)) :=
  scripted (Resolved (auth_error "storage unavailable")) no_session signed_out.

(** [getSession] rejects. *)
Definition env_session_rejects : Env (list (Reply Response)) :=
  scripted (Rejected (Error "storage unavailable")) no_session signed_out.

(** Nobody is logged in. *)
Definition env_logged_out : Env (list (Reply Response)) :=
  scripted no_session no_session signed_out.

(** The refresh yields no session, and [signOut] resolves with an error in
    its result, as when the server cannot be reached to revoke the token. *)
Definition env_signOut_reports_error : Env (list (Reply Response)) :=
  scripted (has_session "tokA") no_session
    (Resolved {| signout_error := Some (Error "network") |}).

(** A caller who hands in a [Headers] instance, and one who spells the key
    of its forged header in lower case. *)
Definition instance_options : RequestInit :=
  {| method := Some "GET";
     headers := Some (HeadersInstance [("x-trace", "1")]);
     body := None |}.

Definition lowercase_options : RequestInit :=
  {| method := Some "GET";
     headers :=
       Some (HeadersRecord {[ "authorization" := HStr "Bearer forged" ]});
     body := None |}.

(** A server that answers every request with 401. *)
Definition env_always_401 : Env unit :=
  {| getSession := λ w, (has_session "tokA", w);
     refreshSession := λ w, (has_session "tokB", w);
     signOut := λ w, (signed_out, w);
     fetch := λ _ _ w, (responds 401, w) |}.


(** * The code around the wrapper

    What follows embeds the code on either side of [utils/api.ts]: the
    pages' handling of the wrapper's failures, the root component's session
    state ([App.tsx]), and the server's side of the credential
    ([supabase/functions/server/index.tsx]). *)

From Stdlib Require Import Ascii.

(** ** JavaScript string helpers *)

(** [s.split(sep)] for a one-character separator: the pieces between the
    separators, at least one piece. *)
Fixpoint split_on (sep : Ascii.ascii) (s : string) : list string :=
  match s with
  | EmptyString => [EmptyString]
  | String c rest =>
      if Ascii.eqb c sep then EmptyString :: split_on sep rest
      else match split_on sep rest with
           | piece :: pieces => String c piece :: pieces
           | [] => [String c EmptyString]
           end
  end.

(** [s.includes(sub)] *)
Fixpoint includes (s sub : string) : bool :=
  String.prefix sub s
  || match s with
     | EmptyString => false
     | String _ rest => includes rest sub
     end.

(** The character [c] occurs nowhere in [s]. *)
Fixpoint free_of (c : Ascii.ascii) (s : string) : bool :=
  match s with
  | EmptyString => true
  | String d rest => negb (Ascii.eqb d c) && free_of c rest
  end.

(** ** The pages' catch blocks

    [handleLike], [handleCreatePost], [handleSave] and [handleToggleFollow]
    all sort a caught error with
    [error.message && error.message.includes('login again')]. *)
Definition is_session_error (e : JsError) : bool :=
  match message e with
  | EmptyString => false
  | m => includes m "login again"
  end.

(** The error object a [catch] block receives for a rejection. *)
Definition caught (x : Exception) : JsError :=
  match x with
  | Thrown e => e
  | Escaped _ e => e
  end.

(** ** JavaScript values *)

(** What reading a property of [null] or [undefined] throws (the server
    runs on V8). *)
Definition cannot_read (what key : string) : JsError :=
  TypeError ("Cannot read properties of " ++ what ++ " (reading '" ++ key ++ "')").

Fixpoint assoc (key : string) (fields : list (string * JsValue)) : JsValue :=
  match fields with
  | [] => JsUndefined
  | (k, v) :: rest => if String.eqb k key then v else assoc key rest
  end.

(** [v.key], for a key that is neither [length] nor an index: a property of
    an object, [undefined] on the other values that have properties, and an
    exception on [null] and [undefined].  The fields of an object are listed
    once each. *)
Definition get_prop (v : JsValue) (key : string) : Reply JsValue :=
  match v with
  | JsUndefined => Rejected (cannot_read "undefined" key)
  | JsNull => Rejected (cannot_read "null" key)
  | JsObject fields => Resolved (assoc key fields)
  | _ => Resolved JsUndefined
  end.

(** [String(v)], as a template literal converts what it interpolates, for
    objects and arrays with the built-in [toString]. *)
Fixpoint to_string (v : JsValue) : string :=
  match v with
  | JsUndefined => "undefined"
  | JsNull => "null"
  | JsBool true => "true"
  | JsBool false => "false"
  | JsNumber n => pretty n
  | JsString s => s
  | JsArray xs =>
      String.concat ","
        (map (λ x, match x with
                   | JsUndefined | JsNull => EmptyString
                   | _ => to_string x
                   end) xs)
  | JsObject _ => "[object Object]"
  end.

(** [v === s] for a string [s]. *)
Definition is_string (v : JsValue) (s : string) : bool :=
  match v with
  | JsString s' => String.eqb s' s
  | _ => false
  end.

(** * The server ([supabase/functions/server/index.tsx]) *)

Module Server.

(** The auth service's user object, as far as the routes read it. *)
Record User := MkUser {
  uid : string;                    (* [user.id] *)
  email : option string;
  metadata_name : option string    (* [user.user_metadata?.name] *)
}.

(** [{ data: { user }, error }], what [auth.getUser] resolves with. *)
Record UserResponse := MkUserResponse {
  user_data : option User;
  user_error : option JsError
}.

(** [{ user, error }], what [verifyAuth] returns. *)
Record AuthResult := MkAuthResult {
  user : option User;
  error : option string
}.

(** One entry per call the server makes to a collaborator. *)
Inductive Call :=
| GetUser (accessToken : string)
| KvGet (key : string)
| KvSet (key : string) (value : JsValue)
| KvDel (key : string)
| KvMdel (keys : list string)
| KvGetByPrefix (prefix : string)
| Now.

(** What a [catch] block may receive: an [Error] object, or any other
    value that was thrown, [null] and [undefined] included. *)
Inductive Caught :=
| CaughtError (e : JsError)
| CaughtValue (v : JsValue).

(** How a call ends: with a value, or with something thrown. *)
Abbreviation Completion := (Settled Caught).

(** [error.message] in a [catch] block, as the string that [+] makes of it:
    the message of an [Error] object, the [message] property of another
    value, and a [TypeError] of its own on [null] and [undefined]. *)
Definition message_of (e : Caught) : Reply string :=
  match e with
  | CaughtError x => Resolved (message x)
  | CaughtValue v =>
      match get_prop v "message" with
      | Resolved m => Resolved (to_string m)
      | Rejected x => Rejected x
      end
  end.

(** The collaborators of the server: the auth service, the key-value store
    ([./kv_store.tsx]) and the clock, over a world [W]. *)
Record Env (W : Type) := MkEnv {
  getUser : string → W → Completion UserResponse * W;
  kv_get : string → W → Completion JsValue * W;
  kv_set : string → JsValue → W → Completion unit * W;
  kv_del : string → W → Completion unit * W;
  kv_mdel : list string → W → Completion unit * W;
  kv_getByPrefix : string → W → Completion (list JsValue) * W;
  now : W → string * W             (* [new Date().toISOString()] *)
}.
Arguments getUser {W} _ _ _.
Arguments kv_get {W} _ _ _.
Arguments kv_set {W} _ _ _ _.
Arguments kv_del {W} _ _ _.
Arguments kv_mdel {W} _ _ _.
Arguments kv_getByPrefix {W} _ _ _.
Arguments now {W} _ _.

(** A server-side [async] computation: from a world to how it ends, the
    new world and the calls made on the way. *)
Definition Task (W A : Type) : Type := W → Completion A * W * list Call.

Definition ret {W A} (a : A) : Task W A :=
  λ w, (Resolved a, w, []).

Definition raise {W A} (e : Caught) : Task W A :=
  λ w, (Rejected e, w, []).

Definition bind {W A B} (m : Task W A) (k : A → Task W B) : Task W B :=
  λ w,
    match m w with
    | (Resolved a, w1, t1) =>
        match k a w1 with
        | (o, w2, t2) => (o, w2, (t1 ++ t2)%list)
        end
    | (Rejected e, w1, t1) => (Rejected e, w1, t1)
    end.

(** [await callee(...)] *)
Definition call {W A} (c : Call) (callee : W → Completion A * W) : Task W A :=
  λ w,
    match callee w with
    | (o, w1) => (o, w1, [c])
    end.

(** [try { m } catch (error) { h error }] *)
Definition try_catch {W A} (m : Task W A) (h : Caught → Task W A) : Task W A :=
  λ w,
    match m w with
    | (Resolved a, w1, t1) => (Resolved a, w1, t1)
    | (Rejected e, w1, t1) =>
        match h e w1 with
        | (o, w2, t2) => (o, w2, (t1 ++ t2)%list)
        end
    end.

Declare Scope task_scope.
Delimit Scope task_scope with task.
Notation "'let*' x ':=' m 'in' k" := (bind m (λ x, k))
  (at level 10, x binder, m at level 100, k at level 200)
  : task_scope.
Local Open Scope task_scope.

(** Projections of a finished run. *)
Definition result {W A} (r : Completion A * W * list Call) : Completion A :=
  r.1.1.
Definition after {W A} (r : Completion A * W * list Call) : W := r.1.2.
Definition log {W A} (r : Completion A * W * list Call) : list Call := r.2.

(** A value handed on as it is, or the exception of computing it, thrown. *)
Definition settle {W A} (r : Reply A) : Task W A :=
  match r with
  | Resolved a => ret a
  | Rejected e => raise (CaughtError e)
  end.

Definition failed (msg : string) : AuthResult :=
  {| user := None; error := Some msg |}.

Section Routes.
Context {W : Type}.
Variable env : Env W.

(** [verifyAuth(request)], as a function of what
    [request.headers.get('Authorization')] returns. *)
Definition verifyAuth (authHeader : option string) : Task W AuthResult :=
  match authHeader with
  | None | Some EmptyString => ret (failed "No Authorization header")
  | Some header =>
      match split_on " "%char header !! 1%nat with
      | None | Some EmptyString => ret (failed "No token provided")
      | Some accessToken =>
          try_catch
            (let* r := call (GetUser accessToken) (getUser env accessToken) in
             match user_error r with
             | Some e =>
                 ret (failed ("Invalid or expired token: " ++ message e))
             | None =>
                 match user_data r with
                 | None => ret (failed "Unauthorized")
                 | Some u => ret {| user := Some u; error := None |}
                 end
             end)
            (λ e,
               let* m := settle (message_of e) in
               ret (failed ("Token verification exception: " ++ m)))
      end
  end.

(** What a route reads of the request: the [Authorization] header and the
    [:id] parameter of the path. *)
Record Request := MkRequest {
  authorization : option string;
  param_id : string
}.

(** [c.json(body, code)] *)
Record HttpResponse := MkHttpResponse {
  code : Z;
  json : JsValue
}.

Definition error_body (msg : string) : JsValue :=
  JsObject [("error", JsString msg)].

(** [authResult.user.id]; the user is [null] exactly when verification
    failed. *)
Definition user_id_of (authResult : AuthResult) : Task W string :=
  match user authResult with
  | None => raise (CaughtError (cannot_read "null" "id"))
  | Some u => ret (uid u)
  end.

(** [xs.map(f)] for an [f] that may throw. *)
Fixpoint map_or_throw {A B} (f : A → Reply B) (xs : list A) : Reply (list B) :=
  match xs with
  | [] => Resolved []
  | x :: rest =>
      match f x with
      | Rejected e => Rejected e
      | Resolved y =>
          match map_or_throw f rest with
          | Rejected e => Rejected e
          | Resolved ys => Resolved (y :: ys)
          end
      end
  end.

(** [GET /users/:id] *)
Definition getUserProfile (req : Request) : Task W HttpResponse :=
  try_catch
    (let userId := param_id req in
     let* u := call (KvGet ("user:" ++ userId)) (kv_get env ("user:" ++ userId)) in
     if negb (truthy u) then ret {| code := 404; json := error_body "User not found" |}
     else
       let* followers :=
         call (KvGetByPrefix ("follow:*:" ++ userId))
              (kv_getByPrefix env ("follow:*:" ++ userId)) in
       let* following :=
         call (KvGetByPrefix ("follow:" ++ userId ++ ":*"))
              (kv_getByPrefix env ("follow:" ++ userId ++ ":*")) in
       ret {| code := 200;
              json := JsObject
                [("user", u);
                 ("stats", JsObject
                    [("followers", JsNumber (Z.of_nat (length followers)));
                     ("following", JsNumber (Z.of_nat (length following)))])] |})
    (λ e,
       let* m := settle (message_of e) in
       ret {| code := 500; json := error_body ("Failed to get user profile: " ++ m) |}).

(** [DELETE /posts/:id] *)
Definition deletePost (req : Request) : Task W HttpResponse :=
  try_catch
    (let* authResult := verifyAuth (authorization req) in
     match error authResult with
     | Some (String _ _ as err) => ret {| code := 401; json := error_body err |}
     | _ =>
         let postId := param_id req in
         let* post := call (KvGet ("post:" ++ postId)) (kv_get env ("post:" ++ postId)) in
         if negb (truthy post) then
           ret {| code := 404; json := error_body "Post not found" |}
         else
           let* owner := settle (get_prop post "userId") in
           let* me := user_id_of authResult in
           if negb (is_string owner me) then
             ret {| code := 403;
                    json := error_body "Unauthorized to delete this post" |}
           else
             let* _ := call (KvDel ("post:" ++ postId)) (kv_del env ("post:" ++ postId)) in
             let* likes :=
               call (KvGetByPrefix ("like:" ++ postId ++ ":"))
                    (kv_getByPrefix env ("like:" ++ postId ++ ":")) in
             let* comments :=
               call (KvGetByPrefix ("comment:" ++ postId ++ ":"))
                    (kv_getByPrefix env ("comment:" ++ postId ++ ":")) in
             let* likeKeys :=
               settle (map_or_throw
                         (λ l, match get_prop l "userId" with
                               | Resolved v =>
                                   Resolved ("like:" ++ postId ++ ":" ++ to_string v)
                               | Rejected e => Rejected e
                               end) likes) in
             let* commentKeys :=
               settle (map_or_throw
                         (λ c, match get_prop c "id" with
                               | Resolved v =>
                                   Resolved ("comment:" ++ postId ++ ":" ++ to_string v)
                               | Rejected e => Rejected e
                               end) comments) in
             let keysToDelete := (likeKeys ++ commentKeys)%list in
             let* _ :=
               match keysToDelete with
               | [] => ret ()
               | _ => call (KvMdel keysToDelete) (kv_mdel env keysToDelete)
               end in
             ret {| code := 200;
                    json := JsObject [("success", JsBool true);
                                      ("message", JsString "Post berhasil dihapus")] |}
     end)
    (λ e,
       let* m := settle (message_of e) in
       ret {| code := 500; json := error_body ("Failed to delete post: " ++ m) |}).

(** [POST /posts/:id/like] *)
Definition toggleLike (req : Request) : Task W HttpResponse :=
  try_catch
    (let* authResult := verifyAuth (authorization req) in
     match error authResult with
     | Some (String _ _ as err) => ret {| code := 401; json := error_body err |}
     | _ =>
         let postId := param_id req in
         let* post := call (KvGet ("post:" ++ postId)) (kv_get env ("post:" ++ postId)) in
         if negb (truthy post) then
           ret {| code := 404; json := error_body "Post not found" |}
         else
           let* me := user_id_of authResult in
           let likeKey := "like:" ++ postId ++ ":" ++ me in
           let* existingLike := call (KvGet likeKey) (kv_get env likeKey) in
           if truthy existingLike then
             let* _ := call (KvDel likeKey) (kv_del env likeKey) in
             ret {| code := 200; json := JsObject [("liked", JsBool false)] |}
           else
             let* createdAt := call Now (λ w, (Resolved (now env w).1, (now env w).2)) in
             let like := JsObject [("postId", JsString postId);
                                   ("userId", JsString me);
                                   ("createdAt", JsString createdAt)] in
             let* _ := call (KvSet likeKey like) (kv_set env likeKey like) in
             ret {| code := 200; json := JsObject [("liked", JsBool true)] |}
     end)
    (λ e,
       let* m := settle (message_of e) in
       ret {| code := 500; json := error_body ("Failed to toggle like: " ++ m) |}).

(** [GET /posts/:id/like/check] *)
Definition checkLike (req : Request) : Task W HttpResponse :=
  try_catch
    (let* authResult := verifyAuth (authorization req) in
     match error authResult with
     | Some (String _ _) =>
         ret {| code := 200; json := JsObject [("liked", JsBool false)] |}
     | _ =>
         let postId := param_id req in
         let* me := user_id_of authResult in
         let likeKey := "like:" ++ postId ++ ":" ++ me in
         let* existingLike := call (KvGet likeKey) (kv_get env likeKey) in
         ret {| code := 200;
                json := JsObject [("liked", JsBool (truthy existingLike))] |}
     end)
    (λ _, ret {| code := 200; json := JsObject [("liked", JsBool false)] |}).

(** [POST /follows/:id] *)
Definition toggleFollow (req : Request) : Task W HttpResponse :=
  try_catch
    (let* authResult := verifyAuth (authorization req) in
     match error authResult with
     | Some (String _ _ as err) => ret {| code := 401; json := error_body err |}
     | _ =>
         let targetUserId := param_id req in
         let* me := user_id_of authResult in
         if String.eqb targetUserId me then
           ret {| code := 400; json := error_body "Cannot follow yourself" |}
         else
           let* targetUser :=
             call (KvGet ("user:" ++ targetUserId))
                  (kv_get env ("user:" ++ targetUserId)) in
           if negb (truthy targetUser) then
             ret {| code := 404; json := error_body "User not found" |}
           else
             let followKey := "follow:" ++ me ++ ":" ++ targetUserId in
             let* existingFollow := call (KvGet followKey) (kv_get env followKey) in
             if truthy existingFollow then
               let* _ := call (KvDel followKey) (kv_del env followKey) in
               ret {| code := 200; json := JsObject [("following", JsBool false)] |}
             else
               let* createdAt := call Now (λ w, (Resolved (now env w).1, (now env w).2)) in
               let follow := JsObject [("followerId", JsString me);
                                       ("followingId", JsString targetUserId);
                                       ("createdAt", JsString createdAt)] in
               let* _ := call (KvSet followKey follow) (kv_set env followKey follow) in
               ret {| code := 200; json := JsObject [("following", JsBool true)] |}
     end)
    (λ e,
       let* m := settle (message_of e) in
       ret {| code := 500; json := error_body ("Failed to toggle follow: " ++ m) |}).

(** [GET /follows/:id/check] *)
Definition checkFollow (req : Request) : Task W HttpResponse :=
  try_catch
    (let* authResult := verifyAuth (authorization req) in
     match error authResult with
     | Some (String _ _) =>
         ret {| code := 200; json := JsObject [("following", JsBool false)] |}
     | _ =>
         let targetUserId := param_id req in
         let* me := user_id_of authResult in
         let followKey := "follow:" ++ me ++ ":" ++ targetUserId in
         let* existingFollow := call (KvGet followKey) (kv_get env followKey) in
         ret {| code := 200;
                json := JsObject [("following", JsBool (truthy existingFollow))] |}
     end)
    (λ _, ret {| code := 200; json := JsObject [("following", JsBool false)] |}).

End Routes.

End Server.

(** ** An in-memory server *)

Module Memory.

(** Modelled from the spec: [./kv_store.tsx] is not among the sources.  The
    specification describes it as a generic key-value store, its keys
    prefixed by entity type, which every route reads by key or by prefix
    range.  Here it is a finite map: [get] gives the value under a key or
    [undefined], [set] binds a key, [del] and [mdel] unbind keys, and
    [getByPrefix] gives the values under the keys that start with the
    prefix.  No operation fails. *)
Record World := MkWorld {
  store : gmap string JsValue;
  clock : nat
}.

Definition with_store (f : gmap string JsValue → gmap string JsValue)
    (w : World) : World :=
  {| store := f (store w); clock := clock w |}.

Definition by_prefix (prefix : string) (m : gmap string JsValue)
  : list JsValue :=
  (map_to_list (filter (λ kv, String.prefix prefix kv.1 = true) m)).*2.

(** The auth service knows the users of [sessions] by their tokens, and
    reports an error for any other token. *)
Definition env (sessions : gmap string Server.User) : Server.Env World :=
  {| Server.getUser := λ tok w,
       (match sessions !! tok with
        | Some u => Resolved {| Server.user_data := Some u;
                                Server.user_error := None |}
        | None => Resolved {| Server.user_data := None;
                              Server.user_error :=
                                Some {| name := "AuthApiError";
                                        message := "invalid JWT" |} |}
        end, w);
     Server.kv_get := λ k w, (Resolved (default JsUndefined (store w !! k)), w);
     Server.kv_set := λ k v w, (Resolved (), with_store (insert k v) w);
     Server.kv_del := λ k w, (Resolved (), with_store (delete k) w);
     Server.kv_mdel := λ ks w,
       (Resolved (), with_store (λ m, foldr delete m ks) w);
     Server.kv_getByPrefix := λ p w, (Resolved (by_prefix p (store w)), w);
     Server.now := λ w,
       (pretty (clock w), {| store := store w; clock := S (clock w) |}) |}.

Definition budi : Server.User :=
  {| Server.uid := "seed-user-1";
     Server.email := Some "budi.santoso@example.com";
     Server.metadata_name := Some "Budi Santoso" |}.

Definition siti : Server.User :=
  {| Server.uid := "seed-user-2";
     Server.email := Some "siti.nurhaliza@example.com";
     Server.metadata_name := Some "Siti Nurhaliza" |}.

Definition sessions : gmap string Server.User :=
  {[ "tokA" := budi; "tokS" := siti ]}.

Definition profile (u : Server.User) : JsValue :=
  JsObject [("id", JsString (Server.uid u));
            ("name", JsString (default EmptyString (Server.metadata_name u)))].

Definition post_by (u : Server.User) (postId content : string) : JsValue :=
  JsObject [("id", JsString postId);
            ("userId", JsString (Server.uid u));
            ("content", JsString content)].

(** Two users and a post of the first. *)
Definition world0 : World :=
  {| store := {[ "user:seed-user-1" := profile budi;
                 "user:seed-user-2" := profile siti;
                 "post:p1" := post_by budi "p1" "Sunset di Jogja" ]};
     clock := 0 |}.

Definition as_user (tok id : string) : Server.Request :=
  {| Server.authorization := Some ("Bearer " ++ tok); Server.param_id := id |}.

End Memory.

(** * The root component ([App.tsx]) *)

(** [try { m } catch (error) { h error }] and [try { m } finally { f }] for
    the client's computations. *)
Definition async_try_catch {W A} (m : Async W A) (h : Exception → Async W A)
  : Async W A :=
  λ w,
    match m w with
    | (Resolved a, w1, t1) => (Resolved a, w1, t1)
    | (Rejected e, w1, t1) =>
        match h e w1 with
        | (o, w2, t2) => (o, w2, (t1 ++ t2)%list)
        end
    end.

Definition async_finally {W A} (m : Async W A) (f : Async W unit) : Async W A :=
  λ w,
    match m w with
    | (o, w1, t1) =>
        match f w1 with
        | (Resolved _, w2, t2) => (o, w2, (t1 ++ t2)%list)
        | (Rejected e, w2, t2) => (Rejected e, w2, (t1 ++ t2)%list)
        end
    end.

(** A call whose promise is dropped, as in [handleLogout();] without
    [await]: its effects happen, its outcome reaches nobody.  The callers
    below do nothing after it but return, so its effects are placed at the
    call. *)
Definition async_forget {W A} (m : Async W A) : Async W unit :=
  λ w,
    match m w with
    | (_, w1, t1) => (Resolved (), w1, t1)
    end.

Module App.

Inductive Page := feed | search | profile.

(** The four [useState] cells of [App]. *)
Record State := MkState {
  accessToken : option string;
  userId : option string;
  isCheckingSession : bool;
  currentPage : Page
}.

Definition setAccessToken (v : option string) (s : State) : State :=
  {| accessToken := v; userId := userId s;
     isCheckingSession := isCheckingSession s; currentPage := currentPage s |}.

Definition setUserId (v : option string) (s : State) : State :=
  {| accessToken := accessToken s; userId := v;
     isCheckingSession := isCheckingSession s; currentPage := currentPage s |}.

Definition setIsCheckingSession (v : bool) (s : State) : State :=
  {| accessToken := accessToken s; userId := userId s;
     isCheckingSession := v; currentPage := currentPage s |}.

Definition setCurrentPage (v : Page) (s : State) : State :=
  {| accessToken := accessToken s; userId := userId s;
     isCheckingSession := isCheckingSession s; currentPage := v |}.

(** The state on mount. *)
Definition initial : State :=
  {| accessToken := None; userId := None;
     isCheckingSession := true; currentPage := feed |}.

(** What [App] renders. *)
Inductive View :=
| Loading
| AuthPage
| Pages (accessToken userId : string) (currentPage : Page).

Definition render (s : State) : View :=
  if isCheckingSession s then Loading
  else
    match accessToken s, userId s with
    | Some (String _ _ as t), Some (String _ _ as u) => Pages t u (currentPage s)
    | _, _ => AuthPage
    end.

(** The callback given to [onAuthStateChange]. *)
Definition onAuthStateChange (event : string) (sess : option Session)
    (s : State) : State :=
  if String.eqb event "SIGNED_IN" || String.eqb event "TOKEN_REFRESHED" then
    match sess with
    | Some x => setUserId (Some (user_id x))
                  (setAccessToken (Some (access_token x)) s)
    | None => s
    end
  else if String.eqb event "SIGNED_OUT" then
    setUserId None (setAccessToken None s)
  else s.

Definition handleAuthSuccess (token id : string) (s : State) : State :=
  setCurrentPage feed (setUserId (Some id) (setAccessToken (Some token) s)).

Definition handleNavigate (page : Page) (s : State) : State :=
  setCurrentPage page s.

Section Component.
Context {W : Type}.
Variable env : Env W.

(** A call to the auth client from inside the component: the world of the
    collaborators moves, the component's state stays. *)
Definition on_world {A} (callee : W → Reply A * W)
  : W * State → Reply A * (W * State) :=
  λ ws,
    match callee ws.1 with
    | (o, w1) => (o, (w1, ws.2))
    end.

(** A state setter. *)
Definition set (f : State → State) : Async (W * State) unit :=
  λ ws, (Resolved (), (ws.1, f ws.2), []).

Definition checkSession : Async (W * State) unit :=
  async_finally
    (async_try_catch
       (let* r := await CallGetSession (on_world (getSession env)) in
        if error r is Some _ then set (setIsCheckingSession false)
        else
          match session (data r) with
          | Some x =>
              let* _ := set (setAccessToken (Some (access_token x))) in
              set (setUserId (Some (user_id x)))
          | None => async_ret ()
          end)
       (λ _, async_ret ()))
    (set (setIsCheckingSession false)).

Definition handleLogout : Async (W * State) unit :=
  let* _ := await CallSignOut (on_world (signOut env)) in
  let* _ := set (setAccessToken None) in
  let* _ := set (setUserId None) in
  set (setCurrentPage feed).

Definition refreshAccessToken : Async (W * State) (option string) :=
  async_try_catch
    (let* r := await CallRefreshSession (on_world (refreshSession env)) in
     if error r is Some _ then
       let* _ := async_forget handleLogout in
       async_ret None
     else
       match session (data r) with
       | Some x =>
           let* _ := set (setAccessToken (Some (access_token x))) in
           let* _ := set (setUserId (Some (user_id x))) in
           async_ret (Some (access_token x))
       | None => async_ret None
       end)
    (λ _,
       let* _ := async_forget handleLogout in
       async_ret None).

End Component.

End App.

(** * Relative dates on the post cards *)

Section FormatDate.
(** [date.toLocaleDateString('id-ID', { day: 'numeric', month: 'short' })],
    of the runtime. *)
Variable toLocaleDateString : Z → string.

(** [formatDate] of the feed's [PostCard]; [now] and [date] are
    [getTime()] values, in milliseconds. *)
Definition formatDate (now date : Z) : string :=
  let diffMs := now - date in
  let diffMins := diffMs `div` 60000 in
  let diffHours := diffMs `div` 3600000 in
  let diffDays := diffMs `div` 86400000 in
  if diffMins <? 1 then "Baru saja"
  else if diffMins <? 60 then pretty diffMins ++ "m"
  else if diffHours <? 24 then pretty diffHours ++ "j"
  else if diffDays <? 7 then pretty diffDays ++ "h"
  else toLocaleDateString date.

(** [formatDate] of [social/PostCard]. *)
Definition formatDate_social (now date : Z) : string :=
  let diffInSeconds := (now - date) `div` 1000 in
  if diffInSeconds <? 60 then pretty diffInSeconds ++ "d"
  else if diffInSeconds <? 3600 then pretty (diffInSeconds `div` 60) ++ "m"
  else if diffInSeconds <? 86400 then pretty (diffInSeconds `div` 3600) ++ "j"
  else if diffInSeconds <? 604800 then pretty (diffInSeconds `div` 86400) ++ "h"
  else toLocaleDateString date.

End FormatDate.

(** ** The words used about the server *)

(** The request passes [verifyAuth] as user [u], which leaves the world
    [w1]. *)
Definition authenticated {W} (env : Server.Env W) (req : Server.Request)
    (w : W) (u : Server.User) (w1 : W) : Prop :=
  Server.result (Server.verifyAuth env (Server.authorization req) w)
    = Resolved {| Server.user := Some u; Server.error := None |}
  ∧ Server.after (Server.verifyAuth env (Server.authorization req) w) = w1.

(** A call that changes the store. *)
Definition is_write (c : Server.Call) : bool :=
  match c with
  | Server.KvSet _ _ | Server.KvDel _ | Server.KvMdel _ => true
  | _ => false
  end.

(** A call to the store. *)
Definition is_store_call (c : Server.Call) : bool :=
  match c with
  | Server.GetUser _ | Server.Now => false
  | _ => true
  end.

(** The key under which [toggleLike] records that [user] likes [postId],
    and whether the store holds a like there. *)
Definition like_key (postId user : string) : string :=
  "like:" ++ postId ++ ":" ++ user.

Definition follow_key (follower target : string) : string :=
  "follow:" ++ follower ++ ":" ++ target.

Definition holds (m : gmap string JsValue) (key : string) : bool :=
  truthy (default JsUndefined (m !! key)).

(** A token as the auth service hands them out: not empty, no space. *)
Definition token_like (tok : string) : Prop :=
  free_of " " tok = true ∧ tok ≠ EmptyString.

(** The status codes the routes answer with. *)
Definition answer_codes : list Z := [200; 400; 401; 403; 404; 500].

(** The in-memory server with a store whose reads throw. *)
Definition env_store_down : Server.Env Memory.World :=
  {| Server.getUser := Server.getUser (Memory.env Memory.sessions);
     Server.kv_get := λ _ w,
       (Rejected (Server.CaughtError (Error "connection lost")), w);
     Server.kv_set := Server.kv_set (Memory.env Memory.sessions);
     Server.kv_del := Server.kv_del (Memory.env Memory.sessions);
     Server.kv_mdel := Server.kv_mdel (Memory.env Memory.sessions);
     Server.kv_getByPrefix := Server.kv_getByPrefix (Memory.env Memory.sessions);
     Server.now := Server.now (Memory.env Memory.sessions) |}.

(** [null] or [undefined]. *)
Definition nullish (v : JsValue) : bool :=
  match v with
  | JsUndefined | JsNull => true
  | _ => false
  end.

(** What a [catch] block that reads [error.message] throws itself when
    what it caught is [v], [null] or [undefined]. *)
Definition unreadable (v : JsValue) : Server.Caught :=
  Server.CaughtError (cannot_read (to_string v) "message").

(** The store throws [e]: some operation of the store, in some world, ends
    with [e] thrown. *)
Definition thrown_by_store {W} (env : Server.Env W) (e : Server.Caught)
  : Prop :=
  ∃ w,
    (∃ k, (Server.kv_get env k w).1 = Rejected e)
    ∨ (∃ k v, (Server.kv_set env k v w).1 = Rejected e)
    ∨ (∃ k, (Server.kv_del env k w).1 = Rejected e)
    ∨ (∃ ks, (Server.kv_mdel env ks w).1 = Rejected e)
    ∨ (∃ p, (Server.kv_getByPrefix env p w).1 = Rejected e).

(** What the body of a route may throw: an [Error] object of the server's
    own code, or whatever the store throws. *)
Definition throwable {W} (env : Server.Env W) (e : Server.Caught) : Prop :=
  (∃ x, e = Server.CaughtError x) ∨ thrown_by_store env e.

(** From any world the computation resolves with a value that satisfies
    [P], or throws something [throwable]. *)
Definition ends_well {W A} (env : Server.Env W) (P : A → Prop)
    (m : Server.Task W A) : Prop :=
  ∀ w, match Server.result (m w) with
       | Resolved a => P a
       | Rejected e => throwable env e
       end.


(** The in-memory server with a store whose reads throw [undefined]. *)
Definition env_store_throws_undefined : Server.Env Memory.World :=
  {| Server.getUser := Server.getUser (Memory.env Memory.sessions);
     Server.kv_get := λ _ w, (Rejected (Server.CaughtValue JsUndefined), w);
     Server.kv_set := Server.kv_set (Memory.env Memory.sessions);
     Server.kv_del := Server.kv_del (Memory.env Memory.sessions);
     Server.kv_mdel := Server.kv_mdel (Memory.env Memory.sessions);
     Server.kv_getByPrefix := Server.kv_getByPrefix (Memory.env Memory.sessions);
     Server.now := Server.now (Memory.env Memory.sessions) |}.

(** ** The words used about [App] *)

(** The token and the user id are both there or both missing. *)
Definition paired (s : App.State) : Prop :=
  App.accessToken s = None ↔ App.userId s = None.

(** The component's state after a run. *)
Definition state_after {W A}
    (r : Outcome A * (W * App.State) * list Event) : App.State :=
  (world r).2.

(** A user who is logged in and looking at the profile page. *)
Definition logged_in : App.State :=
  {| App.accessToken := Some "tokA"; App.userId := Some "u1";
     App.isCheckingSession := false; App.currentPage := App.profile |}.

(** The key discipline of the records filed under a post: every key that
    starts with [prefix] is [prefix] followed by an id, and the record under
    it carries that id, as a string, in its field [field]. *)
Definition disciplined (prefix field : string) (m : gmap string JsValue)
  : Prop :=
  ∀ k v, m !! k = Some v → String.prefix prefix k = true →
    ∃ id, k = prefix ++ id ∧ get_prop v field = Resolved (JsString id).

Definition like_prefix (postId : string) : string := "like:" ++ postId ++ ":".
Definition comment_prefix (postId : string) : string :=
  "comment:" ++ postId ++ ":".

(** The first user has posted, the second has liked the post and has
    commented on it. *)
Definition world1 : Memory.World :=
  {| Memory.store :=
       <[ "like:p1:seed-user-2" :=
            JsObject [("postId", JsString "p1");
                      ("userId", JsString "seed-user-2")] ]>
       (<[ "comment:p1:c1" :=
             JsObject [("id", JsString "c1"); ("postId", JsString "p1");
                       ("userId", JsString "seed-user-2");
                       ("content", JsString "Indah!")] ]>
          (Memory.store Memory.world0));
     Memory.clock := 2 |}.
(** * Properties *)

(** ** Stepping through the awaits *)

Lemma await_bind_resolved {W A B} ev (callee : W → Reply A * W)
    (k : A → Async W B) w a w1 :
  callee w = (Resolved a, w1) →
  async_bind (await ev callee) k w =
    (outcome (k a w1), world (k a w1), ev :: calls (k a w1)).
Proof.
  intros H. unfold async_bind, await, outcome, world, calls. rewrite H.
  by destruct (k a w1) as [[o w2] t2].
Qed.

Lemma await_bind_rejected {W A B} ev (callee : W → Reply A * W)
    (k : A → Async W B) w e w1 :
  callee w = (Rejected e, w1) →
  async_bind (await ev callee) k w = (Rejected (Escaped ev e), w1, [ev]).
Proof. intros H. unfold async_bind, await. by rewrite H. Qed.

(** Whatever the call settles with, it is the first entry of the log. *)
Lemma await_bind_first_call {W A B} ev (callee : W → Reply A * W)
    (k : A → Async W B) w :
  ∃ t, calls (async_bind (await ev callee) k w) = ev :: t.
Proof.
  destruct (callee w) as [[a | e] w1] eqn:H.
  - rewrite (await_bind_resolved _ _ _ _ _ _ H). by eexists.
  - rewrite (await_bind_rejected _ _ _ _ _ _ H). by eexists.
Qed.

(** Take the next [await] with the equation [H] for what its call settles
    with. *)
Ltac await_with H :=
  first [ rewrite (await_bind_resolved _ _ _ _ _ _ H)
        | rewrite (await_bind_rejected _ _ _ _ _ _ H) ].

(** Replace the log of a run that starts with an [await] by that call and a
    rest. *)
Ltac first_call :=
  match goal with
  | |- context [calls (async_bind (await ?ev ?c) ?k ?w)] =>
      let t := fresh "t" in
      destruct (await_bind_first_call ev c k w) as [t ->]
  end.

(** With a credential in hand the wrapper goes on to the first attempt. *)
Lemma fetchWithAuth_first_attempt {W} (env : Env W) url options w0 tok w1 :
  session_with_credential env w0 tok w1 →
  fetchWithAuth env url options w0 =
    let rest :=
      async_bind
        (await (CallFetch url (attempt options tok))
               (fetch env url (attempt options tok)))
        (λ response,
           if status response =? 401 then
             async_bind (await CallRefreshSession (refreshSession env))
               (λ rr,
                  match error rr, session (data rr) with
                  | None, Some s =>
                      async_bind
                        (await (CallFetch url (attempt options (access_token s)))
                           (fetch env url (attempt options (access_token s))))
                        async_ret
                  | _, _ =>
                      async_bind (await CallSignOut (signOut env))
                        (λ _, throw (Error msg_session_expired))
                  end)
           else async_ret response) w1 in
    (outcome rest, world rest, CallGetSession :: calls rest).
Proof.
  intros (r0 & Hget & Herr & Htok & Hne).
  unfold fetchWithAuth. await_with Hget.
  cbv zeta. rewrite Herr, Htok.
  destruct tok as [|c tok]; [done|]. reflexivity.
Qed.

(** After a first attempt answered 401 the wrapper asks for a refresh, and
    what follows depends on the refresh alone. *)
Lemma fetchWithAuth_unauthorized {W} (env : Env W) url options w0 tok w2 :
  first_attempt_unauthorized env url options w0 tok w2 →
  fetchWithAuth env url options w0 =
    let rest :=
      async_bind (await CallRefreshSession (refreshSession env))
        (λ rr,
           match error rr, session (data rr) with
           | None, Some s =>
               async_bind
                 (await (CallFetch url (attempt options (access_token s)))
                    (fetch env url (attempt options (access_token s))))
                 async_ret
           | _, _ =>
               async_bind (await CallSignOut (signOut env))
                 (λ _, throw (Error msg_session_expired))
           end) w2 in
    (outcome rest, world rest,
     CallGetSession :: CallFetch url (attempt options tok) :: calls rest).
Proof.
  intros (w1 & resp1 & Hcred & Hfetch & H401).
  rewrite (fetchWithAuth_first_attempt _ _ _ _ _ _ Hcred). cbv zeta.
  await_with Hfetch. rewrite H401. reflexivity.
Qed.

(** Once the refresh has failed the wrapper calls [signOut], and what it
    settles with depends on how that call settles. *)
Lemma fetchWithAuth_refresh_failed {W} (env : Env W) url options w0 tok w2 w3 :
  first_attempt_unauthorized env url options w0 tok w2 →
  refresh_fails env w2 w3 →
  fetchWithAuth env url options w0 =
    (match signOut env w3 with
     | (Resolved _, _) => Rejected SessionExpired
     | (Rejected e, _) => Rejected (Escaped CallSignOut e)
     end,
     (signOut env w3).2,
     [CallGetSession; CallFetch url (attempt options tok);
      CallRefreshSession; CallSignOut]).
Proof.
  intros H401 (rr & Hrefresh & Hfail).
  rewrite (fetchWithAuth_unauthorized _ _ _ _ _ _ H401). cbv zeta.
  await_with Hrefresh.
  assert (Hbranch :
    (match error rr, session (data rr) with
     | None, Some s =>
         async_bind
           (await (CallFetch url (attempt options (access_token s)))
              (fetch env url (attempt options (access_token s))))
           async_ret
     | _, _ =>
         async_bind (await CallSignOut (signOut env))
           (λ _, throw (Error msg_session_expired))
     end) = async_bind (await CallSignOut (signOut env))
              (λ _ : SignOutResponse, throw (W := W) (A := Response)
                                        (Error msg_session_expired))).
  { destruct Hfail as [[e He] | Hs]; [rewrite He | rewrite Hs];
      by destruct (error rr). }
  rewrite Hbranch.
  destruct (signOut env w3) as [[so | e] w4] eqn:Hso; by await_with Hso.
Qed.

(** Two option records that lead to the same requests lead to the same run:
    the wrapper looks at its options only to build the requests. *)
Lemma fetchWithAuth_attempt_ext {W} (env : Env W) url o1 o2 w :
  (∀ tok, attempt o1 tok = attempt o2 tok) →
  fetchWithAuth env url o1 w = fetchWithAuth env url o2 w.
Proof.
  intros Heq. unfold attempt in Heq.
  unfold fetchWithAuth, async_bind, await. cbv zeta.
  destruct (getSession env w) as [[r0 | e0] w1]; [|done].
  destruct (error r0); [done|].
  destruct (access_token <$> session (data r0)) as [[|c tok]|]; [done| |done].
  rewrite Heq.
  destruct (fetch env url _ w1) as [[resp | e1] w2]; [|done].
  destruct (status resp =? 401); [|done].
  destruct (refreshSession env w2) as [[rr | e2] w3]; [|done].
  destruct (error rr); [done|].
  destruct (session (data rr)) as [s|]; [|done].
  by rewrite Heq.
Qed.

(** ** Headers *)

Lemma auth_headers_injected options tok :
  injected_over (spread (headers options)) (auth_headers options tok) tok.
Proof.
  unfold auth_headers, injected_over.
  split_and!.
  - rewrite lookup_insert_ne by done. apply lookup_insert_eq.
  - apply lookup_insert_eq.
  - intros k Ha Hc. by rewrite !lookup_insert_ne.
Qed.

(** Laying an entry over a map that holds nothing but that entry, with
    another insertion in between, is laying it over the empty map. *)
Lemma insert_over_singleton (k1 k2 : string) (v a : HeaderValue) :
  <[k1 := v]> (<[k2 := a]> ({[ k1 := v ]} : gmap string HeaderValue))
  = <[k1 := v]> (<[k2 := a]> ∅).
Proof.
  apply map_eq. intros k.
  destruct (decide (k = k1)) as [-> | H1].
  - by rewrite !lookup_insert_eq.
  - rewrite !(lookup_insert_ne _ k1) by done.
    destruct (decide (k = k2)) as [-> | H2].
    + by rewrite !lookup_insert_eq.
    + rewrite !lookup_insert_ne by done.
      by rewrite lookup_singleton_ne.
Qed.

(** The [Content-Type] entry that [postWithAuth] and [putWithAuth] put in
    their options is the one the wrapper injects anyway. *)
Lemma attempt_json_headers m b tok :
  attempt {| method := m; headers := Some json_headers; body := b |} tok
  = attempt {| method := m; headers := None; body := b |} tok.
Proof.
  unfold attempt, with_headers, auth_headers, json_headers.
  cbn [method headers body spread].
  by rewrite insert_over_singleton.
Qed.

(** A [Headers] instance handed in as [options.headers] loses its entries in
    the spread: only the injected two are sent. *)
Lemma headers_instance_not_merged m entries b tok :
  auth_headers {| method := m; headers := Some (HeadersInstance entries);
                  body := b |} tok
  = auth_headers {| method := m; headers := None; body := b |} tok.
Proof. reflexivity. Qed.

(** ** Scripted runs *)

Lemma scripted_credential rf so w :
  session_with_credential (scripted (has_session "tokA") rf so) w "tokA" w.
Proof. eexists. split_and!; first [reflexivity | discriminate]. Qed.

Lemma scripted_unauthorized rf so url options rest :
  first_attempt_unauthorized (scripted (has_session "tokA") rf so)
    url options (responds 401 :: rest) "tokA" rest.
Proof.
  exists (responds 401 :: rest), (response 401).
  split_and!; [apply scripted_credential | reflexivity | reflexivity].
Qed.

Lemma scripted_refresh_succeeds gs so w :
  refresh_succeeds (scripted gs (has_session "tokB") so) w (session_of "tokB") w.
Proof. eexists. split_and!; reflexivity. Qed.

Lemma scripted_refresh_fails gs so w :
  refresh_fails (scripted gs no_session so) w w.
Proof. eexists. split; [reflexivity|]. by right. Qed.

(** ** The retry protocol *)

(** C1: when the first attempt is answered 401 and the refresh succeeds with
    a session, the wrapper makes exactly two network calls (and exactly one
    refresh, no sign-out); the second request carries
    [Authorization: Bearer <refreshed token>]; and the wrapper settles with
    whatever the second [fetch] settles with: it resolves with the second
    response whatever its status, 401 included, without any further call. *)
Theorem retry_once_after_refresh {W} (env : Env W) url options w0 tok w2 s w3 :
  first_attempt_unauthorized env url options w0 tok w2 →
  refresh_succeeds env w2 s w3 →
  let run := fetchWithAuth env url options w0 in
  let retry := attempt options (access_token s) in
  calls run = [CallGetSession; CallFetch url (attempt options tok);
               CallRefreshSession; CallFetch url retry]
  ∧ network_calls (calls run) = 2%nat
  ∧ refresh_calls (calls run) = 1%nat
  ∧ signOut_calls (calls run) = 0%nat
  ∧ (∃ h, headers retry = Some (HeadersRecord h)
          ∧ h !! "Authorization" = Some (HStr ("Bearer " ++ access_token s)))
  ∧ (∀ resp2 w4, fetch env url retry w3 = (Resolved resp2, w4) →
       outcome run = Resolved resp2 ∧ world run = w4)
  ∧ (∀ e w4, fetch env url retry w3 = (Rejected e, w4) →
       outcome run = Rejected (NetworkError url retry e)).
Proof.
  intros H401 (rr & Hrefresh & Herr & Hsess) run retry. subst run retry.
  rewrite (fetchWithAuth_unauthorized _ _ _ _ _ _ H401). cbv zeta.
  await_with Hrefresh. rewrite Herr, Hsess.
  set (retry := attempt options (access_token s)).
  assert (Hhdr : ∃ h, headers retry = Some (HeadersRecord h)
            ∧ h !! "Authorization" = Some (HStr ("Bearer " ++ access_token s))).
  { eexists. split; [reflexivity|]. unfold auth_headers.
    rewrite lookup_insert_ne by done. apply lookup_insert_eq. }
  destruct (fetch env url retry w3) as [[resp2 | e] w4] eqn:Hretry;
    await_with Hretry; split_and!; try done; by intros ? ? [= <- <-].
Qed.

(** A second 401 is handed back to the caller; the third scripted reply is
    never asked for. *)
Lemma retry_once_after_refresh_witness :
  let run := fetchWithAuth env_refresh_works "/posts" demo_options
               [responds 401; responds 401; responds 200] in
  outcome run = Resolved (response 401)
  ∧ world run = [responds 200]
  ∧ network_calls (calls run) = 2%nat.
Proof.
  intros run.
  destruct (retry_once_after_refresh env_refresh_works "/posts" demo_options
              [responds 401; responds 401; responds 200] "tokA"
              [responds 401; responds 200] (session_of "tokB")
              [responds 401; responds 200])
    as (_ & Hnet & _ & _ & _ & Hout & _).
  - apply scripted_unauthorized.
  - apply scripted_refresh_succeeds.
  - destruct (Hout (response 401) [responds 200] eq_refl) as [Ho Hw].
    split_and!; [exact Ho | exact Hw | exact Hnet].
Defined.

(** C2, as the code has it: when the first attempt is answered 401, the
    refresh reports an error or yields no session, and the sign-out call
    then resolves, the wrapper has made exactly one network call, has called
    [signOut] exactly once, and fails with [SessionExpired]. *)
Theorem refresh_failure_expires_session {W} (env : Env W)
    url options w0 tok w2 w3 so w4 :
  first_attempt_unauthorized env url options w0 tok w2 →
  refresh_fails env w2 w3 →
  signOut env w3 = (Resolved so, w4) →
  let run := fetchWithAuth env url options w0 in
  outcome run = Rejected SessionExpired
  ∧ calls run = [CallGetSession; CallFetch url (attempt options tok);
                 CallRefreshSession; CallSignOut]
  ∧ network_calls (calls run) = 1%nat
  ∧ signOut_calls (calls run) = 1%nat
  ∧ world run = w4.
Proof.
  intros H401 Hfail Hso run. subst run.
  rewrite (fetchWithAuth_refresh_failed _ _ _ _ _ _ _ H401 Hfail), Hso.
  by split_and!.
Qed.

Lemma refresh_failure_expires_session_witness :
  let run := fetchWithAuth env_refresh_fails "/posts" demo_options
               [responds 401; responds 200] in
  outcome run = Rejected SessionExpired
  ∧ network_calls (calls run) = 1%nat
  ∧ signOut_calls (calls run) = 1%nat.
Proof.
  intros run.
  destruct (refresh_failure_expires_session env_refresh_fails "/posts"
              demo_options [responds 401; responds 200] "tokA"
              [responds 200] [responds 200]
              {| signout_error := None |} [responds 200])
    as (Hout & _ & Hnet & Hso & _).
  - apply scripted_unauthorized.
  - apply scripted_refresh_fails.
  - reflexivity.
  - split_and!; [exact Hout | exact Hnet | exact Hso].
Defined.

(** C2 as stated fails when the sign-out call itself rejects: the first
    attempt is answered 401 and the refresh yields no session, yet the
    wrapper does not fail with [SessionExpired] but with the exception of
    [signOut]. *)
Lemma signOut_rejection_replaces_session_expired :
  first_attempt_unauthorized env_signOut_rejects "/posts" demo_options
    [responds 401] "tokA" []
  ∧ refresh_fails env_signOut_rejects [] []
  ∧ outcome (fetchWithAuth env_signOut_rejects "/posts" demo_options
               [responds 401])
    = Rejected (Escaped CallSignOut (Error "storage unavailable"))
  ∧ outcome (fetchWithAuth env_signOut_rejects "/posts" demo_options
               [responds 401])
    ≠ Rejected SessionExpired.
Proof.
  split_and!.
  - apply scripted_unauthorized.
  - apply scripted_refresh_fails.
  - reflexivity.
  - discriminate.
Qed.

(** C3: when session retrieval succeeds with a credential and the first
    network attempt returns a status other than 401, the wrapper makes
    exactly one network call, attempts no refresh (and no sign-out), and
    resolves with that very response, whatever its status. *)
Theorem non_401_passes_through {W} (env : Env W) url options w0 tok w1 resp w2 :
  session_with_credential env w0 tok w1 →
  fetch env url (attempt options tok) w1 = (Resolved resp, w2) →
  status resp ≠ 401 →
  let run := fetchWithAuth env url options w0 in
  outcome run = Resolved resp
  ∧ calls run = [CallGetSession; CallFetch url (attempt options tok)]
  ∧ network_calls (calls run) = 1%nat
  ∧ refresh_calls (calls run) = 0%nat
  ∧ signOut_calls (calls run) = 0%nat.
Proof.
  intros Hcred Hfetch Hstatus run. subst run.
  rewrite (fetchWithAuth_first_attempt _ _ _ _ _ _ Hcred). cbv zeta.
  await_with Hfetch.
  apply Z.eqb_neq in Hstatus. rewrite Hstatus.
  by split_and!.
Qed.

(** A server error on the first try comes back as it is. *)
Lemma non_401_passes_through_witness :
  let run := fetchWithAuth env_refresh_works "/posts" demo_options
               [responds 500] in
  outcome run = Resolved (response 500)
  ∧ network_calls (calls run) = 1%nat
  ∧ refresh_calls (calls run) = 0%nat.
Proof.
  intros run.
  destruct (non_401_passes_through env_refresh_works "/posts" demo_options
              [responds 500] "tokA" [responds 500] (response 500) [])
    as (Hout & _ & Hnet & Href & _).
  - apply scripted_credential.
  - reflexivity.
  - simpl. lia.
  - split_and!; [exact Hout | exact Hnet | exact Href].
Defined.

(** C4: whatever the collaborators answer, one call of the wrapper makes at
    most two network requests, at most one refresh and at most one sign-out,
    four calls in all; being a straight-line function, it has no loop to
    stay in. *)
Theorem at_most_one_retry {W} (env : Env W) url options w0 :
  let run := fetchWithAuth env url options w0 in
  (network_calls (calls run) ≤ 2)%nat
  ∧ (refresh_calls (calls run) ≤ 1)%nat
  ∧ (signOut_calls (calls run) ≤ 1)%nat
  ∧ (length (calls run) ≤ 4)%nat.
Proof.
  intros run. subst run.
  unfold fetchWithAuth, async_bind, await, async_ret, throw.
  unfold network_calls, refresh_calls, signOut_calls, requests, calls.
  repeat case_match; simplify_eq; cbn [snd omap List.filter request_of
    is_refresh is_signOut length app list_omap]; lia.
Qed.

(** Every response a 401: two requests, one refresh, and the second 401 is
    the result. *)
Example always_401_two_requests :
  let run := fetchWithAuth env_always_401 "/posts" demo_options () in
  outcome run = Resolved (response 401)
  ∧ network_calls (calls run) = 2%nat
  ∧ refresh_calls (calls run) = 1%nat.
Proof. by vm_compute. Qed.

(** C5, as amended: on each attempt the wrapper hands [fetch] the caller's
    options with their headers replaced by one plain record.  That record is
    the own properties of the caller's headers, which for a plain record are
    its entries, with [Authorization: Bearer <token>] and
    [Content-Type: application/json] laid over them: the two injected keys
    hold the injected values whatever the caller put under them, every other
    key holds what the caller's headers held.  The first request carries the
    session's token; when it is answered 401 and the refresh succeeds, the
    second carries the refreshed one.  Keys are property names, compared as
    they are spelled. *)
Theorem injected_headers_override {W} (env : Env W) url options w0 tok w1 :
  session_with_credential env w0 tok w1 →
  let run := fetchWithAuth env url options w0 in
  let caller := spread (headers options) in
  (∀ r, headers options = Some (HeadersRecord r) → caller = r)
  ∧ (∃ init h1,
       requests (calls run) !! 0%nat = Some (url, init)
       ∧ headers init = Some (HeadersRecord h1)
       ∧ injected_over caller h1 tok
       ∧ method init = method options ∧ body init = body options)
  ∧ (∀ w2 s w3,
       first_attempt_unauthorized env url options w0 tok w2 →
       refresh_succeeds env w2 s w3 →
       ∃ init h2,
         requests (calls run) !! 1%nat = Some (url, init)
         ∧ headers init = Some (HeadersRecord h2)
         ∧ injected_over caller h2 (access_token s)
         ∧ method init = method options ∧ body init = body options).
Proof.
  intros Hcred run caller. subst run caller. split_and!.
  - by intros r ->.
  - exists (attempt options tok), (auth_headers options tok).
    split_and!; [|reflexivity|apply auth_headers_injected|reflexivity..].
    rewrite (fetchWithAuth_first_attempt _ _ _ _ _ _ Hcred). cbv zeta.
    first_call. reflexivity.
  - intros w2 s w3 H401 (rr & Hrefresh & Herr & Hsess).
    exists (attempt options (access_token s)),
      (auth_headers options (access_token s)).
    split_and!; [|reflexivity|apply auth_headers_injected|reflexivity..].
    rewrite (fetchWithAuth_unauthorized _ _ _ _ _ _ H401). cbv zeta.
    await_with Hrefresh. rewrite Herr, Hsess.
    first_call. reflexivity.
Qed.

(** A caller's forged [Authorization] entry is replaced on both attempts,
    and its other entry goes through. *)
Lemma injected_headers_override_witness :
  let run := fetchWithAuth env_refresh_works "/posts" demo_options
               [responds 401; responds 200] in
  ∃ init1 h1 init2 h2,
    requests (calls run) !! 0%nat = Some ("/posts", init1)
    ∧ requests (calls run) !! 1%nat = Some ("/posts", init2)
    ∧ headers init1 = Some (HeadersRecord h1)
    ∧ headers init2 = Some (HeadersRecord h2)
    ∧ h1 !! "Authorization" = Some (HStr "Bearer tokA")
    ∧ h2 !! "Authorization" = Some (HStr "Bearer tokB")
    ∧ h2 !! "X-Trace" = Some (HStr "1").
Proof.
  intros run.
  destruct (injected_headers_override env_refresh_works "/posts" demo_options
              [responds 401; responds 200] "tokA"
              [responds 401; responds 200])
    as (_ & (init1 & h1 & Hreq1 & Hh1 & (Hauth1 & _) & _) & Hretry).
  - apply scripted_credential.
  - destruct (Hretry [responds 200] (session_of "tokB") [responds 200])
      as (init2 & h2 & Hreq2 & Hh2 & (Hauth2 & _ & Hrest2) & _).
    + apply scripted_unauthorized.
    + apply scripted_refresh_succeeds.
    + exists init1, h1, init2, h2.
      split_and!; [exact Hreq1 | exact Hreq2 | exact Hh1 | exact Hh2
                  | exact Hauth1 | exact Hauth2 |].
      rewrite Hrest2 by done. reflexivity.
Defined.

(** C5 as stated fails for a caller's header map that is not a plain
    record, and for a header the caller spells differently.  The entries of
    a [Headers] instance are not own properties, so none of them is sent:
    the request carries the two injected headers and nothing of the
    caller's.  And an [authorization] entry in lower case is another
    property than the injected [Authorization]: it is not replaced, the
    record handed to [fetch] holds both. *)
Lemma caller_headers_not_always_merged :
  let sent options :=
    (headers ∘ snd) <$>
      requests (calls (fetchWithAuth env_refresh_works "/posts" options
                         [responds 200])) in
  (∃ h, sent instance_options = [Some (HeadersRecord h)]
        ∧ h !! "x-trace" = None
        ∧ h !! "Authorization" = Some (HStr "Bearer tokA"))
  ∧ (∃ h, sent lowercase_options = [Some (HeadersRecord h)]
          ∧ h !! "authorization" = Some (HStr "Bearer forged")
          ∧ h !! "Authorization" = Some (HStr "Bearer tokA")).
Proof.
  split; eexists; split_and!; reflexivity.
Qed.

(** C6: when the first [fetch] rejects, the wrapper rejects with that
    exception as it is; the only calls made are [getSession] and the one
    [fetch]: no refresh, no second request, no sign-out. *)
Theorem network_failure_propagates {W} (env : Env W) url options w0 tok w1 e w2 :
  session_with_credential env w0 tok w1 →
  fetch env url (attempt options tok) w1 = (Rejected e, w2) →
  let run := fetchWithAuth env url options w0 in
  outcome run = Rejected (NetworkError url (attempt options tok) e)
  ∧ calls run = [CallGetSession; CallFetch url (attempt options tok)]
  ∧ network_calls (calls run) = 1%nat
  ∧ refresh_calls (calls run) = 0%nat
  ∧ signOut_calls (calls run) = 0%nat.
Proof.
  intros Hcred Hfetch run. subst run.
  rewrite (fetchWithAuth_first_attempt _ _ _ _ _ _ Hcred). cbv zeta.
  await_with Hfetch. by split_and!.
Qed.

(** With the network down the caller sees the transport's own exception. *)
Lemma network_failure_propagates_witness :
  let run := fetchWithAuth env_refresh_works "/posts" demo_options [] in
  outcome run = Rejected (NetworkError "/posts" (attempt demo_options "tokA")
                            (TypeError "Failed to fetch"))
  ∧ refresh_calls (calls run) = 0%nat
  ∧ signOut_calls (calls run) = 0%nat.
Proof.
  intros run.
  destruct (network_failure_propagates env_refresh_works "/posts" demo_options
              [] "tokA" [] (TypeError "Failed to fetch") [])
    as (Hout & _ & _ & Href & Hso).
  - apply scripted_credential.
  - reflexivity.
  - split_and!; [exact Hout | exact Href | exact Hso].
Defined.

(** ** Failures before the first attempt *)

(** A [getSession] that rejects is not caught: its exception escapes
    unchanged, before any network call. *)
Lemma session_rejection_escapes {W} (env : Env W) url options w0 e w1 :
  getSession env w0 = (Rejected e, w1) →
  fetchWithAuth env url options w0
    = (Rejected (Escaped CallGetSession e), w1, [CallGetSession]).
Proof. intros Hget. unfold fetchWithAuth. by await_with Hget. Qed.

(** C7, as the code has it: when [getSession] resolves with an error, the
    wrapper fails with [SessionUnavailable]; [getSession] is the only call
    made, so there is no network call, no refresh and no sign-out. *)
Theorem session_error_is_unavailable {W} (env : Env W) url options w0 r0 e w1 :
  getSession env w0 = (Resolved r0, w1) →
  error r0 = Some e →
  let run := fetchWithAuth env url options w0 in
  outcome run = Rejected SessionUnavailable
  ∧ calls run = [CallGetSession]
  ∧ network_calls (calls run) = 0%nat
  ∧ refresh_calls (calls run) = 0%nat
  ∧ signOut_calls (calls run) = 0%nat.
Proof.
  intros Hget Herr run. subst run.
  unfold fetchWithAuth. await_with Hget.
  cbv zeta. rewrite Herr. by split_and!.
Qed.

Lemma session_error_is_unavailable_witness :
  let run := fetchWithAuth env_session_error "/posts" demo_options
               [responds 200] in
  outcome run = Rejected SessionUnavailable
  ∧ network_calls (calls run) = 0%nat.
Proof.
  intros run.
  destruct (session_error_is_unavailable env_session_error "/posts"
              demo_options [responds 200] (auth_error "storage unavailable")
              {| name := "AuthError"; message := "storage unavailable" |}
              [responds 200])
    as (Hout & _ & Hnet & _).
  - reflexivity.
  - reflexivity.
  - split; [exact Hout | exact Hnet].
Defined.

(** C7 as stated fails when [getSession] itself throws: the wrapper makes no
    network call, but what it fails with is the exception of [getSession],
    not [SessionUnavailable]. *)
Lemma session_rejection_is_not_unavailable :
  getSession env_session_rejects [responds 200]
    = (Rejected (Error "storage unavailable"), [responds 200])
  ∧ outcome (fetchWithAuth env_session_rejects "/posts" demo_options
               [responds 200])
    = Rejected (Escaped CallGetSession (Error "storage unavailable"))
  ∧ outcome (fetchWithAuth env_session_rejects "/posts" demo_options
               [responds 200])
    ≠ Rejected SessionUnavailable
  ∧ network_calls (calls (fetchWithAuth env_session_rejects "/posts"
                            demo_options [responds 200])) = 0%nat.
Proof.
  rewrite (session_rejection_escapes env_session_rejects "/posts" demo_options
             [responds 200] (Error "storage unavailable") [responds 200] eq_refl).
  by split_and!.
Qed.

(** C8: when [getSession] resolves without an error but there is no session,
    or the session's token is the empty string, the wrapper fails with
    [NoCredential]; [getSession] is the only call made. *)
Theorem no_token_is_no_credential {W} (env : Env W) url options w0 r0 w1 :
  getSession env w0 = (Resolved r0, w1) →
  error r0 = None →
  session (data r0) = None
    ∨ access_token <$> session (data r0) = Some EmptyString →
  let run := fetchWithAuth env url options w0 in
  outcome run = Rejected NoCredential
  ∧ calls run = [CallGetSession]
  ∧ network_calls (calls run) = 0%nat
  ∧ refresh_calls (calls run) = 0%nat
  ∧ signOut_calls (calls run) = 0%nat.
Proof.
  intros Hget Herr Hno run. subst run.
  unfold fetchWithAuth. await_with Hget.
  cbv zeta. rewrite Herr.
  destruct Hno as [Hno | Hno]; rewrite Hno; by split_and!.
Qed.

Lemma no_token_is_no_credential_witness :
  let run := fetchWithAuth env_logged_out "/posts" demo_options
               [responds 200] in
  outcome run = Rejected NoCredential
  ∧ network_calls (calls run) = 0%nat.
Proof.
  intros run.
  destruct (no_token_is_no_credential env_logged_out "/posts" demo_options
              [responds 200]
              {| data := {| session := None |}; error := None |}
              [responds 200])
    as (Hout & _ & Hnet & _).
  - reflexivity.
  - reflexivity.
  - left. reflexivity.
  - split; [exact Hout | exact Hnet].
Defined.

(** ** The helpers *)

(** C9, as the code has it: [getWithAuth] and [deleteWithAuth] are
    [fetchWithAuth] on the endpoint with the method bound and nothing else;
    [postWithAuth] and [putWithAuth] are [fetchWithAuth] with the method
    bound and the body JSON-encoded when it is truthy, absent otherwise, so
    that they are what the specification says whenever the body is truthy
    or not supplied.  They run exactly as these calls do: same outcome, same
    world, same calls. *)
Theorem helpers_bind_method_and_body {W} (env : Env W) projectId
    (JSON_stringify : JsValue → string) path body w :
  getWithAuth env projectId path w = spec_get env projectId path w
  ∧ deleteWithAuth env projectId path w = spec_delete env projectId path w
  ∧ postWithAuth env projectId JSON_stringify path body w
    = fetchWithAuth env (endpoint projectId path)
        (bound "POST" (if truthy body then Some (JSON_stringify body) else None)) w
  ∧ putWithAuth env projectId JSON_stringify path body w
    = fetchWithAuth env (endpoint projectId path)
        (bound "PUT" (if truthy body then Some (JSON_stringify body) else None)) w
  ∧ (truthy body = supplied body →
       postWithAuth env projectId JSON_stringify path body w
       = spec_post env projectId JSON_stringify path body w
       ∧ putWithAuth env projectId JSON_stringify path body w
         = spec_put env projectId JSON_stringify path body w).
Proof.
  assert (Hpost : ∀ m,
    fetchWithAuth env (endpoint projectId path)
      {| method := Some m; headers := Some json_headers;
         body := encode_body JSON_stringify body |} w
    = fetchWithAuth env (endpoint projectId path)
        (bound m (if truthy body then Some (JSON_stringify body) else None)) w).
  { intros m. apply fetchWithAuth_attempt_ext. intros tok.
    apply attempt_json_headers. }
  split_and!.
  - reflexivity.
  - reflexivity.
  - apply Hpost.
  - apply Hpost.
  - intros Hsup. unfold spec_post, spec_put. rewrite <- Hsup.
    split; apply Hpost.
Qed.

(** An object as body, the way the pages call the helpers: here the helper
    is the specification's [post]. *)
Lemma helpers_bind_method_and_body_witness :
  postWithAuth env_refresh_works "abc" demo_stringify "/posts" (JsObject [])
    [responds 201]
  = spec_post env_refresh_works "abc" demo_stringify "/posts" (JsObject [])
      [responds 201].
Proof.
  destruct (helpers_bind_method_and_body env_refresh_works "abc"
              demo_stringify "/posts" (JsObject []) [responds 201])
    as (_ & _ & _ & _ & Hspec).
  exact (proj1 (Hspec eq_refl)).
Defined.

(** C9 as stated fails on a body that is supplied but falsy: for the number
    0 the specification's [post] sends the encoded body, [postWithAuth]
    sends none. *)
Lemma falsy_body_is_dropped :
  let sent run := (body ∘ snd) <$> requests (calls run) in
  supplied (JsNumber 0) = true
  ∧ sent (spec_post env_refresh_works "abc" demo_stringify "/posts"
            (JsNumber 0) [responds 200])
    = [Some "0"]
  ∧ sent (postWithAuth env_refresh_works "abc" demo_stringify "/posts"
            (JsNumber 0) [responds 200])
    = [None]
  ∧ postWithAuth env_refresh_works "abc" demo_stringify "/posts"
      (JsNumber 0) [responds 200]
    ≠ spec_post env_refresh_works "abc" demo_stringify "/posts"
        (JsNumber 0) [responds 200].
Proof.
  intros sent. split_and!; try reflexivity.
  intros Heq. apply (f_equal sent) in Heq. vm_compute in Heq. discriminate.
Qed.

(** The request [postWithAuth] sends for an empty object. *)
Example post_with_object_body :
  let run := postWithAuth env_refresh_works "abc" demo_stringify "/posts"
               (JsObject []) [responds 201] in
  outcome run = Resolved (response 201)
  ∧ (body ∘ snd) <$> requests (calls run) = [Some "{}"]
  ∧ (method ∘ snd) <$> requests (calls run) = [Some "POST"].
Proof. by vm_compute. Qed.

(** ** Session termination *)

(** C10, as amended: on the refresh-failure path [signOut] is called, and
    awaited, before anything is thrown: it is the last call of the run and
    the world left behind is the one [signOut] left.  If that call throws,
    its exception is what the caller gets, not [SessionExpired]; and the
    run fails with [SessionExpired] exactly when the [signOut] call
    returned, whatever it returned: the wrapper does not look at the
    [error] field of the result. *)
Theorem signOut_awaited_before_expiry {W} (env : Env W)
    url options w0 tok w2 w3 :
  first_attempt_unauthorized env url options w0 tok w2 →
  refresh_fails env w2 w3 →
  let run := fetchWithAuth env url options w0 in
  last (calls run) = Some CallSignOut
  ∧ signOut_calls (calls run) = 1%nat
  ∧ world run = (signOut env w3).2
  ∧ (∀ e w4, signOut env w3 = (Rejected e, w4) →
       outcome run = Rejected (Escaped CallSignOut e)
       ∧ outcome run ≠ Rejected SessionExpired)
  ∧ (outcome run = Rejected SessionExpired ↔
       ∃ so w4, signOut env w3 = (Resolved so, w4)).
Proof.
  intros H401 Hfail run. subst run.
  rewrite (fetchWithAuth_refresh_failed _ _ _ _ _ _ _ H401 Hfail).
  unfold outcome, world, calls. cbn [fst snd].
  split_and!; try done.
  - by intros e w4 ->.
  - split; [|by intros (so & w4 & ->)].
    destruct (signOut env w3) as [[so | e] w4]; [eauto | discriminate].
Qed.

Lemma signOut_awaited_before_expiry_witness :
  let run := fetchWithAuth env_signOut_rejects "/posts" demo_options
               [responds 401] in
  last (calls run) = Some CallSignOut
  ∧ outcome run = Rejected (Escaped CallSignOut (Error "storage unavailable")).
Proof.
  intros run.
  destruct (signOut_awaited_before_expiry env_signOut_rejects "/posts"
              demo_options [responds 401] "tokA" [] [])
    as (Hlast & _ & _ & Hrej & _).
  - apply scripted_unauthorized.
  - apply scripted_refresh_fails.
  - split; [exact Hlast|].
    exact (proj1 (Hrej (Error "storage unavailable") [] eq_refl)).
Defined.

(** C10 as stated fails in its last part: a [SessionExpired] result does
    not imply that the sign-out completed without error.  Here the first
    attempt is answered 401, the refresh yields no session, and [signOut]
    resolves with an error in its result; the wrapper fails with
    [SessionExpired] all the same. *)
Lemma session_expired_after_signOut_error :
  let run := fetchWithAuth env_signOut_reports_error "/posts" demo_options
               [responds 401] in
  first_attempt_unauthorized env_signOut_reports_error "/posts" demo_options
    [responds 401] "tokA" []
  ∧ refresh_fails env_signOut_reports_error [] []
  ∧ signOut env_signOut_reports_error []
    = (Resolved {| signout_error := Some (Error "network") |}, [])
  ∧ last (calls run) = Some CallSignOut
  ∧ outcome run = Rejected SessionExpired.
Proof.
  split_and!.
  - apply scripted_unauthorized.
  - apply scripted_refresh_fails.
  - reflexivity.
  - reflexivity.
  - reflexivity.
Qed.

(** ** Rejections the wrapper does not handle *)

(** A refresh that rejects, rather than reporting an error, is not caught
    either: its exception reaches the caller, and neither [signOut] nor a
    second request follows. *)
Theorem refresh_rejection_escapes {W} (env : Env W) url options w0 tok w2 e w3 :
  first_attempt_unauthorized env url options w0 tok w2 →
  refreshSession env w2 = (Rejected e, w3) →
  let run := fetchWithAuth env url options w0 in
  outcome run = Rejected (Escaped CallRefreshSession e)
  ∧ calls run = [CallGetSession; CallFetch url (attempt options tok);
                 CallRefreshSession]
  ∧ network_calls (calls run) = 1%nat
  ∧ signOut_calls (calls run) = 0%nat.
Proof.
  intros H401 Hrefresh run. subst run.
  rewrite (fetchWithAuth_unauthorized _ _ _ _ _ _ H401). cbv zeta.
  await_with Hrefresh. by split_and!.
Qed.

Lemma refresh_rejection_escapes_witness :
  let env := scripted (has_session "tokA")
               (Rejected (TypeError "Failed to fetch")) signed_out in
  let run := fetchWithAuth env "/posts" demo_options [responds 401] in
  outcome run
    = Rejected (Escaped CallRefreshSession (TypeError "Failed to fetch"))
  ∧ signOut_calls (calls run) = 0%nat.
Proof.
  intros env run.
  destruct (refresh_rejection_escapes env "/posts" demo_options
              [responds 401] "tokA" [] (TypeError "Failed to fetch") [])
    as (Hout & _ & _ & Hso).
  - apply scripted_unauthorized.
  - reflexivity.
  - split; [exact Hout | exact Hso].
Defined.

(** The value [signOut] resolves with is discarded: an error reported in it
    changes nothing, the wrapper fails with [SessionExpired] all the same. *)
Theorem signOut_reported_error_ignored {W} (env : Env W)
    url options w0 tok w2 w3 e w4 :
  first_attempt_unauthorized env url options w0 tok w2 →
  refresh_fails env w2 w3 →
  signOut env w3 = (Resolved {| signout_error := Some e |}, w4) →
  outcome (fetchWithAuth env url options w0) = Rejected SessionExpired.
Proof.
  intros H401 Hfail Hso.
  by rewrite (fetchWithAuth_refresh_failed _ _ _ _ _ _ _ H401 Hfail), Hso.
Qed.

Lemma signOut_reported_error_ignored_witness :
  let env := scripted (has_session "tokA") no_session
               (Resolved {| signout_error := Some (Error "network") |}) in
  outcome (fetchWithAuth env "/posts" demo_options [responds 401])
  = Rejected SessionExpired.
Proof.
  intros env.
  apply (signOut_reported_error_ignored env "/posts" demo_options
           [responds 401] "tokA" [] [] (Error "network") []).
  - apply scripted_unauthorized.
  - apply scripted_refresh_fails.
  - reflexivity.
Defined.

(** * Properties of the code around the wrapper *)

(** ** Strings *)

Lemma split_on_free sep s :
  free_of sep s = true → split_on sep s = [s].
Proof.
  induction s as [|c s IH]; [done|]. cbn [split_on free_of].
  intros [Hc Hs]%andb_prop.
  apply negb_true_iff in Hc. rewrite Hc, (IH Hs). done.
Qed.

Lemma split_on_app sep a b :
  free_of sep a = true →
  split_on sep (a ++ String sep b) = a :: split_on sep b.
Proof.
  induction a as [|c a IH].
  - intros _. change (EmptyString ++ String sep b) with (String sep b).
    cbn [split_on]. by rewrite Ascii.eqb_refl.
  - cbn [free_of]. intros [Hc Ha]%andb_prop. apply negb_true_iff in Hc.
    change (String c a ++ String sep b) with (String c (a ++ String sep b)).
    cbn [split_on]. by rewrite Hc, (IH Ha).
Qed.

(** The second piece of [scheme token], split at the spaces. *)
Lemma second_word scheme tok :
  free_of " " scheme = true → free_of " " tok = true →
  split_on " " (scheme ++ " " ++ tok) !! 1%nat = Some tok.
Proof.
  intros Hs Ht. change (" " ++ tok) with (String " " tok).
  by rewrite (split_on_app _ _ _ Hs), (split_on_free _ _ Ht).
Qed.

Lemma app_nonempty (a : string) c b : a ++ String c b ≠ EmptyString.
Proof. by destruct a. Qed.

(** ** The pages' catch blocks *)

(** Every failure the wrapper raises itself falls in the session-error
    branch of the pages' catch blocks: whatever the collaborators do, an
    error object thrown by [fetchWithAuth] has a message that includes
    [login again]. *)
Theorem own_failures_are_session_errors {W} (env : Env W) url options w e :
  outcome (fetchWithAuth env url options w) = Rejected (Thrown e) →
  is_session_error e = true.
Proof.
  unfold fetchWithAuth, async_bind, await, async_ret, throw, outcome.
  intros H. repeat case_match; simplify_eq/=; reflexivity.
Qed.

Lemma own_failures_are_session_errors_witness :
  is_session_error (Error msg_no_token) = true.
Proof.
  apply (own_failures_are_session_errors env_logged_out "/posts" demo_options
           [responds 200]).
  reflexivity.
Defined.

(** A transport failure is not taken for a session error: its message goes
    to the toast as it is. *)
Example network_failure_is_not_a_session_error :
  is_session_error
    (caught (NetworkError "/posts" demo_options (TypeError "Failed to fetch")))
  = false.
Proof. reflexivity. Qed.

(** ** [verifyAuth] *)

(** What [verifyAuth] does with a header whose second word is a token. *)
Lemma verifyAuth_with_token {W} (env : Server.Env W) scheme tok w :
  free_of " " scheme = true → free_of " " tok = true → tok ≠ EmptyString →
  Server.verifyAuth env (Some (scheme ++ " " ++ tok)) w =
    (match Server.getUser env tok w with
     | (Resolved r, _) =>
         Resolved
           match Server.user_error r, Server.user_data r with
           | Some e, _ =>
               Server.failed ("Invalid or expired token: " ++ message e)
           | None, None => Server.failed "Unauthorized"
           | None, Some u => {| Server.user := Some u; Server.error := None |}
           end
     | (Rejected e, _) =>
         match Server.message_of e with
         | Resolved m =>
             Resolved
               (Server.failed ("Token verification exception: " ++ m))
         | Rejected x => Rejected (Server.CaughtError x)
         end
     end,
     (Server.getUser env tok w).2,
     [Server.GetUser tok]).
Proof.
  intros Hs Ht Hne. unfold Server.verifyAuth.
  rewrite (second_word _ _ Hs Ht).
  change (" " ++ tok) with (String " " tok).
  destruct (scheme ++ String " " tok) eqn:Hh; [by apply app_nonempty in Hh|].
  destruct tok as [|c tok]; [done|].
  unfold Server.try_catch, Server.bind, Server.call, Server.ret,
    Server.settle, Server.raise.
  destruct (Server.getUser env _ w) as [[r | e] w1]; cbn.
  - destruct (Server.user_error r); [done|].
    by destruct (Server.user_data r).
  - by destruct (Server.message_of e).
Qed.

(** What the [catch] block of [verifyAuth] and of the routes makes of what
    it caught: a message, or the [TypeError] of reading [message] off
    [null] or [undefined]. *)
Lemma message_of_cases e :
  (∃ m, Server.message_of e = Resolved m)
  ∨ (∃ v, nullish v = true ∧ e = Server.CaughtValue v
          ∧ Server.message_of e = Rejected (cannot_read (to_string v) "message")).
Proof.
  destruct e as [x | v]; [left; by eexists|].
  destruct v; cbn; try (left; by eexists).
  - right. by exists JsUndefined.
  - right. by exists JsNull.
Qed.

(** How [verifyAuth] ends: with a user and no error, with an error, never
    the empty string, and no user, or, when the auth service threw [null]
    or [undefined], with the [TypeError] of its own [catch] block. *)
Lemma verifyAuth_settles {W} (env : Server.Env W) h w :
  ∃ o w1 t, Server.verifyAuth env h w = (o, w1, t)
    ∧ ((∃ u, o = Resolved {| Server.user := Some u; Server.error := None |})
       ∨ (∃ c msg, o = Resolved (Server.failed (String c msg)))
       ∨ (∃ tok v, nullish v = true ∧ o = Rejected (unreadable v)
                   ∧ Server.getUser env tok w
                     = (Rejected (Server.CaughtValue v), w1)
                   ∧ t = [Server.GetUser tok]))
    ∧ (t = [] ∧ w1 = w ∨ ∃ tok, t = [Server.GetUser tok]).
Proof.
  unfold Server.verifyAuth.
  destruct h as [[|c header]|];
    [do 3 eexists; split; [reflexivity|]; split;
       [right; left; by do 2 eexists | by left]
    | | do 3 eexists; split; [reflexivity|]; split;
       [right; left; by do 2 eexists | by left]].
  destruct (split_on " " (String c header) !! 1%nat) as [[|c' tok]|];
    [do 3 eexists; split; [reflexivity|]; split;
       [right; left; by do 2 eexists | by left]
    | | do 3 eexists; split; [reflexivity|]; split;
       [right; left; by do 2 eexists | by left]].
  unfold Server.try_catch, Server.bind, Server.call, Server.ret,
    Server.settle, Server.raise.
  destruct (Server.getUser env _ w) as [[r | e] w1] eqn:Hget; cbn.
  - destruct (Server.user_error r), (Server.user_data r);
      do 3 eexists; (split; [reflexivity|]); (split; [|by eauto]);
      first [ by left; eexists | by right; left; do 2 eexists ].
  - destruct (message_of_cases e) as [[m Hm] | (v & Hv & -> & Hm)];
      rewrite Hm; cbn; do 3 eexists; (split; [reflexivity|]);
      (split; [|by eauto]).
    + right; left. by do 2 eexists.
    + right; right. by do 2 eexists.
Qed.





(** A header with no space in it (none at all, an empty one, a lone scheme,
    a token sent without a scheme) is turned down without asking the auth
    service. *)
Theorem verifyAuth_without_token {W} (env : Server.Env W) h w :
  h = None ∨ (∃ s, h = Some s ∧ free_of " " s = true) →
  let run := Server.verifyAuth env h w in
  Server.log run = []
  ∧ Server.after run = w
  ∧ (Server.result run = Resolved (Server.failed "No Authorization header")
     ∨ Server.result run = Resolved (Server.failed "No token provided")).
Proof.
  intros Hh run. subst run. unfold Server.verifyAuth.
  destruct Hh as [-> | (s & -> & Hs)]; [by split_and!; [| | left]|].
  destruct s as [|c s]; [by split_and!; [| | left]|].
  rewrite (split_on_free _ _ Hs). by split_and!; [| | right].
Qed.

(** A token sent bare is not recognised. *)
Lemma verifyAuth_without_token_witness :
  Server.result
    (Server.verifyAuth (Memory.env Memory.sessions) (Some "tokA")
       Memory.world0)
  = Resolved (Server.failed "No token provided").
Proof.
  destruct (verifyAuth_without_token (Memory.env Memory.sessions)
              (Some "tokA") Memory.world0) as (_ & _ & [H | H]).
  - right. by exists "tokA".
  - discriminate H.
  - exact H.
Defined.

(** From the client's session to the server's check: the [Authorization]
    value of the wrapper's first request, handed to [verifyAuth], makes the
    server ask the auth service about exactly the token the client's
    session held, provided the token has no space in it. *)
Theorem session_token_reaches_getUser {W V} (client : Env W)
    (server : Server.Env V) url options w0 tok w1 v0 :
  session_with_credential client w0 tok w1 →
  free_of " " tok = true →
  ∃ init h value,
    requests (calls (fetchWithAuth client url options w0)) !! 0%nat
      = Some (url, init)
    ∧ headers init = Some (HeadersRecord h)
    ∧ h !! "Authorization" = Some (HStr value)
    ∧ Server.log (Server.verifyAuth server (Some value) v0)
      = [Server.GetUser tok].
Proof.
  intros Hcred Hfree.
  assert (Hne : tok ≠ EmptyString) by (by destruct Hcred as (? & ? & ? & ? & ?)).
  exists (attempt options tok), (auth_headers options tok), ("Bearer " ++ tok).
  split_and!.
  - rewrite (fetchWithAuth_first_attempt _ _ _ _ _ _ Hcred). cbv zeta.
    first_call. reflexivity.
  - reflexivity.
  - unfold auth_headers. rewrite lookup_insert_ne by done.
    apply lookup_insert_eq.
  - change ("Bearer " ++ tok) with ("Bearer" ++ " " ++ tok).
    by rewrite (verifyAuth_with_token server "Bearer" tok v0).
Qed.

Lemma session_token_reaches_getUser_witness :
  ∃ value,
    (snd <$> requests (calls (fetchWithAuth env_refresh_works "/posts"
                                demo_options [responds 200]))) !! 0%nat
      = Some (attempt demo_options "tokA")
    ∧ auth_headers demo_options "tokA" !! "Authorization" = Some (HStr value)
    ∧ Server.log (Server.verifyAuth (Memory.env Memory.sessions) (Some value)
                    Memory.world0)
      = [Server.GetUser "tokA"].
Proof.
  destruct (session_token_reaches_getUser env_refresh_works
              (Memory.env Memory.sessions) "/posts" demo_options
              [responds 200] "tokA" [responds 200] Memory.world0)
    as (init & h & value & Hreq & Hh & Hv & Hlog).
  - apply scripted_credential.
  - reflexivity.
  - exists value.
    assert (init = attempt demo_options "tokA") as -> by (by vm_compute in Hreq; simplify_eq).
    cbn in Hh. simplify_eq. split_and!; [reflexivity | exact Hv | exact Hlog].
Defined.

(** ** The routes *)

Lemma bind_resolved {W A B} (m : Server.Task W A) (k : A → Server.Task W B)
    w a w1 t1 :
  m w = (Resolved a, w1, t1) →
  Server.bind m k w =
    (Server.result (k a w1), Server.after (k a w1),
     (t1 ++ Server.log (k a w1))%list).
Proof.
  intros H. unfold Server.bind, Server.result, Server.after, Server.log.
  rewrite H. by destruct (k a w1) as [[o w2] t2].
Qed.

Lemma call_resolved {W A B} c (callee : W → Server.Completion A * W)
    (k : A → Server.Task W B) w a w1 :
  callee w = (Resolved a, w1) →
  Server.bind (Server.call c callee) k w =
    (Server.result (k a w1), Server.after (k a w1), c :: Server.log (k a w1)).
Proof.
  intros H. apply (bind_resolved (Server.call c callee) k w a w1 [c]).
  unfold Server.call. by rewrite H.
Qed.


(** The [catch] block of a route. *)
Lemma catch_500 {W} text e (w : W) :
  Server.bind (Server.settle (Server.message_of e))
    (λ m, Server.ret {| Server.code := 500;
                        Server.json := Server.error_body (text ++ m) |}) w
  = (match Server.message_of e with
     | Resolved m =>
         Resolved {| Server.code := 500;
                     Server.json := Server.error_body (text ++ m) |}
     | Rejected x => Rejected (Server.CaughtError x)
     end, w, []).
Proof. by destruct (Server.message_of e). Qed.

Lemma ret_bind {W A B} (a : A) (k : A → Server.Task W B) w :
  Server.bind (Server.ret a) k w =
    (Server.result (k a w), Server.after (k a w), Server.log (k a w)).
Proof. by rewrite (bind_resolved (Server.ret a) k w a w []). Qed.

Lemma run_eta {W A} (r : Server.Completion A * W * list Server.Call) :
  (Server.result r, Server.after r, Server.log r) = r.
Proof. by destruct r as [[o w] t]. Qed.

Lemma try_catch_resolved {W A} (m : Server.Task W A) h w :
  (∃ a, Server.result (m w) = Resolved a) →
  Server.try_catch m h w = m w.
Proof.
  intros [a Ha]. unfold Server.try_catch, Server.result in *.
  destruct (m w) as [[[a' | e] w1] t1]; [done | discriminate Ha].
Qed.

(** What [verifyAuth] leaves when it fails. *)
Lemma verifyAuth_failed {W} (env : Server.Env W) h w r msg :
  Server.result (Server.verifyAuth env h w) = Resolved r →
  Server.error r = Some msg →
  ∃ c rest, msg = String c rest
    ∧ Server.verifyAuth env h w
      = (Resolved (Server.failed msg),
         Server.after (Server.verifyAuth env h w),
         Server.log (Server.verifyAuth env h w)).
Proof.
  destruct (verifyAuth_settles env h w) as (o & w1 & t & Heq & Hr & _).
  rewrite Heq. unfold Server.result, Server.after, Server.log. cbn [fst snd].
  intros -> Hmsg.
  destruct Hr as [[u [= ->]] | [(c & rest & [= ->]) | (? & ? & _ & [=] & _)]];
    [discriminate Hmsg|].
  cbn in Hmsg. simplify_eq. by exists c, rest.
Qed.

Lemma verifyAuth_passed {W} (env : Server.Env W) req w u w1 :
  authenticated env req w u w1 →
  Server.verifyAuth env (Server.authorization req) w
    = (Resolved {| Server.user := Some u; Server.error := None |}, w1,
       Server.log (Server.verifyAuth env (Server.authorization req) w)).
Proof.
  intros [Hr Hw]. unfold Server.result, Server.after, Server.log in *.
  destruct (Server.verifyAuth env _ w) as [[o w'] t]. cbn in *. by subst.
Qed.

(** The routes that change the store turn an unverified request down with
    401 and the text [verifyAuth] gave, before any call to the store: the
    calls of the route are those of [verifyAuth]. *)
Theorem unverified_mutations_get_401 {W} (env : Server.Env W) req w r msg :
  Server.result (Server.verifyAuth env (Server.authorization req) w)
    = Resolved r →
  Server.error r = Some msg →
  let denied :=
    (Resolved {| Server.code := 401; Server.json := Server.error_body msg |},
     Server.after (Server.verifyAuth env (Server.authorization req) w),
     Server.log (Server.verifyAuth env (Server.authorization req) w)) in
  Server.toggleLike env req w = denied
  ∧ Server.toggleFollow env req w = denied
  ∧ Server.deletePost env req w = denied.
Proof.
  intros Hr Hmsg denied. subst denied.
  destruct (verifyAuth_failed env _ w r msg Hr Hmsg) as (c & rest & -> & Heq).
  unfold Server.toggleLike, Server.toggleFollow, Server.deletePost.
  rewrite !try_catch_resolved;
    rewrite ?(bind_resolved _ _ _ _ _ _ Heq); cbn; rewrite ?app_nil_r;
    by eauto.
Qed.

(** No header, no write. *)
Lemma unverified_mutations_get_401_witness :
  Server.toggleLike (Memory.env Memory.sessions)
    {| Server.authorization := None; Server.param_id := "p1" |} Memory.world0
  = (Resolved {| Server.code := 401;
                 Server.json := Server.error_body "No Authorization header" |},
     Memory.world0, []).
Proof.
  destruct (unverified_mutations_get_401 (Memory.env Memory.sessions)
              {| Server.authorization := None; Server.param_id := "p1" |}
              Memory.world0 (Server.failed "No Authorization header")
              "No Authorization header" eq_refl eq_refl) as [H _].
  exact H.
Defined.

(** Asking whether a post is liked, or a user followed, never fails: with a
    bad credential, with a store that throws, for any ids, the answer is a
    200 with a boolean, and nothing is written. *)
Theorem check_routes_always_answer {W} (env : Server.Env W) req w :
  (∃ b, Server.result (Server.checkLike env req w)
        = Resolved {| Server.code := 200;
                      Server.json := JsObject [("liked", JsBool b)] |})
  ∧ (∃ b, Server.result (Server.checkFollow env req w)
          = Resolved {| Server.code := 200;
                        Server.json := JsObject [("following", JsBool b)] |})
  ∧ List.filter is_write (Server.log (Server.checkLike env req w)) = []
  ∧ List.filter is_write (Server.log (Server.checkFollow env req w)) = [].
Proof.
  destruct (verifyAuth_settles env (Server.authorization req) w)
    as (o & w1 & t & Heq & Hr & Ht).
  assert (Hread : List.filter is_write t = [])
    by (by destruct Ht as [[-> _] | [tok ->]]).
  unfold Server.checkLike, Server.checkFollow, Server.try_catch, Server.bind,
    Server.user_id_of, Server.call, Server.ret, Server.raise,
    Server.result, Server.log.
  rewrite Heq.
  destruct Hr as [[u ->] | [(c & msg & ->) | (tok & v & _ & -> & _)]];
    cbn [Server.error Server.user Server.failed];
    repeat case_match; simplify_eq; cbn [fst snd];
    rewrite ?List.filter_app, ?Hread; cbn; split_and!; eauto.
Qed.

(** A post is deleted by its author only: for anybody else who is logged
    in the answer is 403, and the store has been read once and not
    written. *)
Theorem deletePost_only_by_owner {W} (env : Server.Env W) req w u w1
    post owner w2 :
  authenticated env req w u w1 →
  Server.kv_get env ("post:" ++ Server.param_id req) w1 = (Resolved post, w2) →
  truthy post = true →
  get_prop post "userId" = Resolved owner →
  is_string owner (Server.uid u) = false →
  Server.deletePost env req w =
    (Resolved {| Server.code := 403;
                 Server.json :=
                   Server.error_body "Unauthorized to delete this post" |},
     w2,
     (Server.log (Server.verifyAuth env (Server.authorization req) w)
        ++ [Server.KvGet ("post:" ++ Server.param_id req)])%list).
Proof.
  intros Hauth Hget Htruthy Howner Hother.
  unfold Server.deletePost.
  rewrite try_catch_resolved;
    rewrite (bind_resolved _ _ _ _ _ _ (verifyAuth_passed _ _ _ _ _ Hauth));
    cbn [Server.error];
    rewrite (call_resolved _ _ _ _ _ _ Hget), Htruthy; cbn [negb];
    rewrite Howner; cbn; rewrite Hother; cbn; by eauto.
Qed.

Lemma deletePost_only_by_owner_witness :
  Server.deletePost (Memory.env Memory.sessions) (Memory.as_user "tokS" "p1")
    Memory.world0
  = (Resolved {| Server.code := 403;
                 Server.json :=
                   Server.error_body "Unauthorized to delete this post" |},
     Memory.world0,
     [Server.GetUser "tokS"; Server.KvGet "post:p1"]).
Proof.
  apply (deletePost_only_by_owner (Memory.env Memory.sessions)
           (Memory.as_user "tokS" "p1") Memory.world0 Memory.siti
           Memory.world0 (Memory.post_by Memory.budi "p1" "Sunset di Jogja")
           (JsString "seed-user-1") Memory.world0).
  - split; reflexivity.
  - reflexivity.
  - reflexivity.
  - reflexivity.
  - reflexivity.
Defined.

(** Liking or deleting a post that is not in the store gives 404, after one
    read of the store and no write. *)
Theorem missing_post_is_404 {W} (env : Server.Env W) req w u w1 post w2 :
  authenticated env req w u w1 →
  Server.kv_get env ("post:" ++ Server.param_id req) w1 = (Resolved post, w2) →
  truthy post = false →
  let not_found :=
    (Resolved {| Server.code := 404;
                 Server.json := Server.error_body "Post not found" |},
     w2,
     (Server.log (Server.verifyAuth env (Server.authorization req) w)
        ++ [Server.KvGet ("post:" ++ Server.param_id req)])%list) in
  Server.toggleLike env req w = not_found
  ∧ Server.deletePost env req w = not_found.
Proof.
  intros Hauth Hget Hfalsy not_found. subst not_found.
  unfold Server.toggleLike, Server.deletePost.
  split;
    rewrite try_catch_resolved;
    rewrite (bind_resolved _ _ _ _ _ _ (verifyAuth_passed _ _ _ _ _ Hauth));
    cbn [Server.error];
    rewrite (call_resolved _ _ _ _ _ _ Hget), Hfalsy; cbn; by eauto.
Qed.

Lemma missing_post_is_404_witness :
  Server.result
    (Server.toggleLike (Memory.env Memory.sessions)
       (Memory.as_user "tokA" "p404") Memory.world0)
  = Resolved {| Server.code := 404;
                Server.json := Server.error_body "Post not found" |}.
Proof.
  destruct (missing_post_is_404 (Memory.env Memory.sessions)
              (Memory.as_user "tokA" "p404") Memory.world0 Memory.budi
              Memory.world0 JsUndefined Memory.world0) as [H _].
  - split; reflexivity.
  - reflexivity.
  - reflexivity.
  - by rewrite H.
Defined.

(** Nobody follows themselves: a request to follow one's own id gets 400,
    and the store is not touched at all. *)
Theorem cannot_follow_yourself {W} (env : Server.Env W) req w u w1 :
  authenticated env req w u w1 →
  Server.param_id req = Server.uid u →
  Server.toggleFollow env req w =
    (Resolved {| Server.code := 400;
                 Server.json := Server.error_body "Cannot follow yourself" |},
     w1,
     Server.log (Server.verifyAuth env (Server.authorization req) w)).
Proof.
  intros Hauth Hself. unfold Server.toggleFollow.
  rewrite try_catch_resolved;
    rewrite (bind_resolved _ _ _ _ _ _ (verifyAuth_passed _ _ _ _ _ Hauth));
    rewrite Hself; cbn; rewrite String.eqb_refl; cbn; rewrite ?app_nil_r;
    by eauto.
Qed.

Lemma cannot_follow_yourself_witness :
  Server.toggleFollow (Memory.env Memory.sessions)
    (Memory.as_user "tokA" "seed-user-1") Memory.world0
  = (Resolved {| Server.code := 400;
                 Server.json := Server.error_body "Cannot follow yourself" |},
     Memory.world0, [Server.GetUser "tokA"]).
Proof.
  apply (cannot_follow_yourself (Memory.env Memory.sessions)
           (Memory.as_user "tokA" "seed-user-1") Memory.world0 Memory.budi
           Memory.world0).
  - split; reflexivity.
  - reflexivity.
Defined.

(** ** The routes over the in-memory store *)

Lemma memory_verifyAuth sessions tok u w :
  sessions !! tok = Some u → token_like tok →
  Server.verifyAuth (Memory.env sessions) (Some ("Bearer " ++ tok)) w
  = (Resolved {| Server.user := Some u; Server.error := None |}, w,
     [Server.GetUser tok]).
Proof.
  intros Hu [Hfree Hne].
  change ("Bearer " ++ tok) with ("Bearer" ++ " " ++ tok).
  rewrite (verifyAuth_with_token _ "Bearer" tok w eq_refl Hfree Hne).
  cbn. by rewrite Hu.
Qed.

Lemma memory_authenticated sessions tok u id w :
  sessions !! tok = Some u → token_like tok →
  authenticated (Memory.env sessions) (Memory.as_user tok id) w u w.
Proof.
  intros Hu Htok. unfold authenticated, Memory.as_user.
  cbn [Server.authorization].
  by rewrite (memory_verifyAuth _ _ _ _ Hu Htok).
Qed.

Lemma like_key_not_post postId user id : like_key postId user ≠ "post:" ++ id.
Proof. unfold like_key. cbv [String.append String.app]. discriminate. Qed.

(** One run of [toggleLike] by a logged-in user on a post that exists. *)
Lemma toggleLike_memory sessions tok u postId post w :
  sessions !! tok = Some u → token_like tok →
  Memory.store w !! ("post:" ++ postId) = Some post → truthy post = true →
  let key := like_key postId (Server.uid u) in
  let like := JsObject [("postId", JsString postId);
                        ("userId", JsString (Server.uid u));
                        ("createdAt", JsString (pretty (Memory.clock w)))] in
  Server.toggleLike (Memory.env sessions) (Memory.as_user tok postId) w
  = if holds (Memory.store w) key then
      (Resolved {| Server.code := 200;
                   Server.json := JsObject [("liked", JsBool false)] |},
       Memory.with_store (delete key) w,
       [Server.GetUser tok; Server.KvGet ("post:" ++ postId);
        Server.KvGet key; Server.KvDel key])
    else
      (Resolved {| Server.code := 200;
                   Server.json := JsObject [("liked", JsBool true)] |},
       {| Memory.store := <[key := like]> (Memory.store w);
          Memory.clock := S (Memory.clock w) |},
       [Server.GetUser tok; Server.KvGet ("post:" ++ postId);
        Server.KvGet key; Server.Now; Server.KvSet key like]).
Proof.
  intros Hu Htok Hpost Htruthy key like. subst key like. unfold like_key.
  unfold Server.toggleLike, Memory.as_user.
  cbn [Server.authorization Server.param_id].
  unfold Server.try_catch.
  rewrite (bind_resolved _ _ _ _ _ _ (memory_verifyAuth _ _ _ w Hu Htok)).
  cbn [Server.error].
  rewrite (call_resolved _ _ _ _ post w) by (cbn; by rewrite Hpost).
  rewrite Htruthy. cbn [negb Server.user_id_of Server.user].
  rewrite ret_bind.
  erewrite (call_resolved (Server.KvGet _)); [|reflexivity].
  unfold holds.
  destruct (truthy (default JsUndefined (Memory.store w !! _))).
  - erewrite (call_resolved (Server.KvDel _)); [|reflexivity]. reflexivity.
  - erewrite (call_resolved Server.Now); [|reflexivity].
    erewrite (call_resolved (Server.KvSet _ _)); [|reflexivity].
    reflexivity.
Qed.

Lemma checkLike_memory sessions tok u postId w :
  sessions !! tok = Some u → token_like tok →
  Server.checkLike (Memory.env sessions) (Memory.as_user tok postId) w
  = (Resolved {| Server.code := 200;
                 Server.json :=
                   JsObject [("liked",
                              JsBool (holds (Memory.store w)
                                        (like_key postId (Server.uid u))))] |},
     w,
     [Server.GetUser tok; Server.KvGet (like_key postId (Server.uid u))]).
Proof.
  intros Hu Htok. unfold Server.checkLike, Memory.as_user, like_key, holds.
  cbn [Server.authorization Server.param_id].
  unfold Server.try_catch.
  rewrite (bind_resolved _ _ _ _ _ _ (memory_verifyAuth _ _ _ w Hu Htok)).
  cbn [Server.error Server.user_id_of Server.user].
  rewrite ret_bind.
  erewrite (call_resolved (Server.KvGet _)); [|reflexivity]. reflexivity.
Qed.

Lemma holds_insert_object m key fields :
  holds (<[key := JsObject fields]> m) key = true.
Proof. unfold holds. by rewrite lookup_insert_eq. Qed.

Lemma holds_delete m key : holds (delete key m) key = false.
Proof. unfold holds. by rewrite lookup_delete_eq. Qed.

(** A like toggles: for a logged-in user and a post that exists, the answer
    is the opposite of what the store held, the store then holds that
    answer under the user's like key and is unchanged under every other
    key, and the check route reports the same answer. *)
Theorem toggleLike_flips sessions tok u postId post w :
  sessions !! tok = Some u → token_like tok →
  Memory.store w !! ("post:" ++ postId) = Some post → truthy post = true →
  let req := Memory.as_user tok postId in
  let key := like_key postId (Server.uid u) in
  let liked := holds (Memory.store w) key in
  let run := Server.toggleLike (Memory.env sessions) req w in
  let answer :=
    Resolved {| Server.code := 200;
                Server.json := JsObject [("liked", JsBool (negb liked))] |} in
  Server.result run = answer
  ∧ holds (Memory.store (Server.after run)) key = negb liked
  ∧ (∀ k, k ≠ key →
       Memory.store (Server.after run) !! k = Memory.store w !! k)
  ∧ Server.result
      (Server.checkLike (Memory.env sessions) req (Server.after run))
    = answer.
Proof.
  intros Hu Htok Hpost Htruthy req key liked run answer.
  subst req run answer.
  rewrite (toggleLike_memory _ _ _ _ _ _ Hu Htok Hpost Htruthy).
  rewrite (checkLike_memory _ _ _ _ _ Hu Htok).
  fold key. fold liked. unfold Server.result, Server.after.
  destruct liked; cbn [fst snd negb Memory.store Memory.with_store].
  - rewrite holds_delete. split_and!; try done.
    intros k Hk. by rewrite lookup_delete_ne.
  - rewrite holds_insert_object. split_and!; try done.
    intros k Hk. by rewrite lookup_insert_ne.
Qed.

Lemma toggleLike_flips_witness :
  Server.result
    (Server.toggleLike (Memory.env Memory.sessions)
       (Memory.as_user "tokS" "p1") Memory.world0)
  = Resolved {| Server.code := 200;
                Server.json := JsObject [("liked", JsBool true)] |}.
Proof.
  destruct (toggleLike_flips Memory.sessions "tokS" Memory.siti "p1"
              (Memory.post_by Memory.budi "p1" "Sunset di Jogja")
              Memory.world0) as [H _].
  - reflexivity.
  - by split.
  - reflexivity.
  - reflexivity.
  - exact H.
Defined.

(** Liking twice is not liking: after two toggles by the same user the
    second answer is what the store held at the start, the like key holds
    what it held, and every other key is as it was; a store that had no
    binding under the like key is the same store again. *)
Theorem toggleLike_twice sessions tok u postId post w :
  sessions !! tok = Some u → token_like tok →
  Memory.store w !! ("post:" ++ postId) = Some post → truthy post = true →
  let req := Memory.as_user tok postId in
  let key := like_key postId (Server.uid u) in
  let liked := holds (Memory.store w) key in
  let once := Server.toggleLike (Memory.env sessions) req w in
  let twice := Server.toggleLike (Memory.env sessions) req (Server.after once) in
  Server.result twice
    = Resolved {| Server.code := 200;
                  Server.json := JsObject [("liked", JsBool liked)] |}
  ∧ holds (Memory.store (Server.after twice)) key = liked
  ∧ (∀ k, k ≠ key →
       Memory.store (Server.after twice) !! k = Memory.store w !! k)
  ∧ (Memory.store w !! key = None →
       Memory.store (Server.after twice) = Memory.store w).
Proof.
  intros Hu Htok Hpost Htruthy req key liked once twice.
  assert (Hpost1 : Memory.store (Server.after once) !! ("post:" ++ postId)
                   = Some post).
  { subst once req. rewrite (toggleLike_memory _ _ _ _ _ _ Hu Htok Hpost Htruthy).
    fold key. unfold Server.after.
    destruct (holds (Memory.store w) key);
      cbn [fst snd Memory.store Memory.with_store].
    - rewrite lookup_delete_ne; [done | apply like_key_not_post].
    - rewrite lookup_insert_ne; [done | apply like_key_not_post]. }
  subst twice req.
  rewrite (toggleLike_memory _ _ _ _ _ _ Hu Htok Hpost1 Htruthy).
  fold key. subst once.
  rewrite (toggleLike_memory _ _ _ _ _ _ Hu Htok Hpost Htruthy).
  fold key. fold liked. unfold Server.result, Server.after.
  destruct liked eqn:Hliked; cbn [fst snd Memory.store Memory.with_store].
  - rewrite holds_delete. cbn [fst snd Memory.store Memory.with_store].
    rewrite holds_insert_object. split_and!; try done.
    + intros k Hk. by rewrite lookup_insert_ne, lookup_delete_ne.
    + intros Hnone. subst liked. unfold holds in Hliked.
      by rewrite Hnone in Hliked.
  - rewrite holds_insert_object. cbn [fst snd Memory.store Memory.with_store].
    rewrite holds_delete. split_and!; try done.
    + intros k Hk. by rewrite lookup_delete_ne, lookup_insert_ne.
    + intros Hnone. by rewrite delete_insert_eq, delete_id.
Qed.

Lemma toggleLike_twice_witness :
  Memory.store
    (Server.after
       (Server.toggleLike (Memory.env Memory.sessions)
          (Memory.as_user "tokS" "p1")
          (Server.after
             (Server.toggleLike (Memory.env Memory.sessions)
                (Memory.as_user "tokS" "p1") Memory.world0))))
  = Memory.store Memory.world0.
Proof.
  destruct (toggleLike_twice Memory.sessions "tokS" Memory.siti "p1"
              (Memory.post_by Memory.budi "p1" "Sunset di Jogja")
              Memory.world0) as (_ & _ & _ & H).
  - reflexivity.
  - by split.
  - reflexivity.
  - reflexivity.
  - apply H. reflexivity.
Defined.

(** ** Follows and the profile's counters *)

Lemma free_of_app c a b :
  free_of c (a ++ b) = free_of c a && free_of c b.
Proof.
  induction a as [|d a IH]; [done|].
  change (String d a ++ b) with (String d (a ++ b)). cbn [free_of].
  by rewrite IH, andb_assoc.
Qed.

(** A prefix of a string holds no character the string does not hold. *)
Lemma prefix_free c p k :
  String.prefix p k = true → free_of c k = true → free_of c p = true.
Proof.
  revert k. induction p as [|a p IH]; intros [|b k]; cbn; try done.
  destruct (ascii_dec a b) as [<- | _]; [|done].
  intros Hp [Hb Hk]%andb_prop. rewrite Hb. cbn. by apply (IH k).
Qed.

(** The key of a follow between ids without an asterisk starts with neither
    of the prefixes the profile route counts. *)
Lemma follow_key_not_counted me target x :
  free_of "*" me = true → free_of "*" target = true →
  String.prefix ("follow:*:" ++ x) (follow_key me target) = false
  ∧ String.prefix ("follow:" ++ x ++ ":*") (follow_key me target) = false.
Proof.
  intros Hme Htarget.
  assert (Hkey : free_of "*" (follow_key me target) = true).
  { unfold follow_key. rewrite !free_of_app, Hme, Htarget. reflexivity. }
  split; apply not_true_is_false; intros Hp.
  - by pose proof (prefix_free "*" _ _ Hp Hkey) as Hfree.
  - pose proof (prefix_free "*" _ _ Hp Hkey) as Hfree.
    rewrite !free_of_app in Hfree. cbn in Hfree.
    by rewrite !andb_false_r in Hfree.
Qed.

Lemma by_prefix_insert_other p key v m :
  String.prefix p key = false →
  Memory.by_prefix p (<[key := v]> m) = Memory.by_prefix p m.
Proof.
  intros Hp. unfold Memory.by_prefix.
  rewrite map_filter_insert_not; [done|]. intros y. cbn. by rewrite Hp.
Qed.

Lemma by_prefix_delete_other p key m :
  String.prefix p key = false →
  Memory.by_prefix p (delete key m) = Memory.by_prefix p m.
Proof.
  intros Hp. unfold Memory.by_prefix.
  rewrite map_filter_delete_not; [done|]. intros y _. cbn. by rewrite Hp.
Qed.

Lemma getUserProfile_memory sessions auth x w :
  Server.getUserProfile (Memory.env sessions)
    {| Server.authorization := auth; Server.param_id := x |} w
  = (Resolved
       (let u := default JsUndefined (Memory.store w !! ("user:" ++ x)) in
        if truthy u then
          {| Server.code := 200;
             Server.json := JsObject
               [("user", u);
                ("stats", JsObject
                   [("followers",
                     JsNumber (Z.of_nat (length (Memory.by_prefix
                                 ("follow:*:" ++ x) (Memory.store w)))));
                    ("following",
                     JsNumber (Z.of_nat (length (Memory.by_prefix
                                 ("follow:" ++ x ++ ":*") (Memory.store w)))))])] |}
        else {| Server.code := 404;
                Server.json := Server.error_body "User not found" |}),
     w,
     if truthy (default JsUndefined (Memory.store w !! ("user:" ++ x))) then
       [Server.KvGet ("user:" ++ x);
        Server.KvGetByPrefix ("follow:*:" ++ x);
        Server.KvGetByPrefix ("follow:" ++ x ++ ":*")]
     else [Server.KvGet ("user:" ++ x)]).
Proof.
  unfold Server.getUserProfile, Server.try_catch.
  cbn [Server.param_id].
  erewrite (call_resolved (Server.KvGet _)); [|reflexivity].
  cbv zeta.
  destruct (truthy (default JsUndefined (Memory.store w !! _))); cbn [negb].
  - erewrite (call_resolved (Server.KvGetByPrefix _)); [|reflexivity].
    erewrite (call_resolved (Server.KvGetByPrefix _)); [|reflexivity].
    reflexivity.
  - reflexivity.
Qed.

Lemma follow_key_not_user me target x : follow_key me target ≠ "user:" ++ x.
Proof. unfold follow_key. cbv [String.append String.app]. discriminate. Qed.

Lemma toggleFollow_memory sessions tok u target targetUser w :
  sessions !! tok = Some u → token_like tok →
  target ≠ Server.uid u →
  Memory.store w !! ("user:" ++ target) = Some targetUser →
  truthy targetUser = true →
  let key := follow_key (Server.uid u) target in
  let follow := JsObject [("followerId", JsString (Server.uid u));
                          ("followingId", JsString target);
                          ("createdAt", JsString (pretty (Memory.clock w)))] in
  Server.toggleFollow (Memory.env sessions) (Memory.as_user tok target) w
  = if holds (Memory.store w) key then
      (Resolved {| Server.code := 200;
                   Server.json := JsObject [("following", JsBool false)] |},
       Memory.with_store (delete key) w,
       [Server.GetUser tok; Server.KvGet ("user:" ++ target);
        Server.KvGet key; Server.KvDel key])
    else
      (Resolved {| Server.code := 200;
                   Server.json := JsObject [("following", JsBool true)] |},
       {| Memory.store := <[key := follow]> (Memory.store w);
          Memory.clock := S (Memory.clock w) |},
       [Server.GetUser tok; Server.KvGet ("user:" ++ target);
        Server.KvGet key; Server.Now; Server.KvSet key follow]).
Proof.
  intros Hu Htok Hother Htarget Htruthy key follow.
  subst key follow. unfold follow_key.
  unfold Server.toggleFollow, Memory.as_user.
  cbn [Server.authorization Server.param_id].
  unfold Server.try_catch.
  rewrite (bind_resolved _ _ _ _ _ _ (memory_verifyAuth _ _ _ w Hu Htok)).
  cbn [Server.error Server.user_id_of Server.user].
  rewrite ret_bind.
  apply String.eqb_neq in Hother. rewrite Hother.
  rewrite (call_resolved _ _ _ _ targetUser w) by (cbn; by rewrite Htarget).
  rewrite Htruthy. cbn [negb].
  erewrite (call_resolved (Server.KvGet _)); [|reflexivity].
  unfold holds.
  destruct (truthy (default JsUndefined (Memory.store w !! _))).
  - erewrite (call_resolved (Server.KvDel _)); [|reflexivity]. reflexivity.
  - erewrite (call_resolved Server.Now); [|reflexivity].
    erewrite (call_resolved (Server.KvSet _ _)); [|reflexivity].
    reflexivity.
Qed.

(** With the store matching prefixes literally, a follow never shows in a
    profile: the profile route counts the keys that start with
    [follow:*:<id>] and [follow:<id>:*], asterisk included, and the key
    [toggleFollow] writes for ids without an asterisk starts with neither.
    So after a follow or an unfollow every profile reads as before. *)
Theorem follows_never_counted sessions tok u target targetUser w x :
  sessions !! tok = Some u → token_like tok →
  target ≠ Server.uid u →
  Memory.store w !! ("user:" ++ target) = Some targetUser →
  truthy targetUser = true →
  free_of "*" (Server.uid u) = true → free_of "*" target = true →
  let run :=
    Server.toggleFollow (Memory.env sessions) (Memory.as_user tok target) w in
  let profile_of v :=
    Server.result
      (Server.getUserProfile (Memory.env sessions)
         {| Server.authorization := None; Server.param_id := x |} v) in
  Server.result run
    = Resolved {| Server.code := 200;
                  Server.json :=
                    JsObject [("following",
                               JsBool (negb (holds (Memory.store w)
                                  (follow_key (Server.uid u) target))))] |}
  ∧ profile_of (Server.after run) = profile_of w.
Proof.
  intros Hu Htok Hother Htarget Htruthy Hme Hstar run profile_of.
  subst run profile_of.
  rewrite (toggleFollow_memory _ _ _ _ _ _ Hu Htok Hother Htarget Htruthy).
  rewrite !getUserProfile_memory.
  destruct (follow_key_not_counted (Server.uid u) target x Hme Hstar)
    as [Hp1 Hp2].
  unfold Server.result, Server.after.
  destruct (holds (Memory.store w) _);
    cbn [fst snd negb Memory.store Memory.with_store]; split; try done.
  - rewrite lookup_delete_ne by apply follow_key_not_user.
    by rewrite !by_prefix_delete_other.
  - rewrite lookup_insert_ne by apply follow_key_not_user.
    by rewrite !by_prefix_insert_other.
Qed.

(** Siti follows Budi, and Budi's profile still counts no follower. *)
Lemma follows_never_counted_witness :
  let after_follow :=
    Server.after
      (Server.toggleFollow (Memory.env Memory.sessions)
         (Memory.as_user "tokS" "seed-user-1") Memory.world0) in
  holds (Memory.store after_follow) (follow_key "seed-user-2" "seed-user-1")
    = true
  ∧ Server.result
      (Server.getUserProfile (Memory.env Memory.sessions)
         {| Server.authorization := None; Server.param_id := "seed-user-1" |}
         after_follow)
    = Server.result
        (Server.getUserProfile (Memory.env Memory.sessions)
           {| Server.authorization := None; Server.param_id := "seed-user-1" |}
           Memory.world0).
Proof.
  intros after_follow. split; [reflexivity|].
  destruct (follows_never_counted Memory.sessions "tokS" Memory.siti
              "seed-user-1" (Memory.profile Memory.budi) Memory.world0
              "seed-user-1") as [_ H].
  - reflexivity.
  - by split.
  - discriminate.
  - reflexivity.
  - reflexivity.
  - reflexivity.
  - reflexivity.
  - exact H.
Defined.

(** ** What leaves a route *)

Lemma ends_well_ret {W A} (env : Server.Env W) (P : A → Prop) a :
  P a → ends_well env P (Server.ret a).
Proof. by intros Ha w. Qed.

Lemma ends_well_raise {W A} (env : Server.Env W) (P : A → Prop) x :
  ends_well env P (Server.raise (Server.CaughtError x)).
Proof. intros w. left. by eexists. Qed.

Lemma ends_well_settle {W A} (env : Server.Env W) (r : Reply A) :
  ends_well env (λ _, True) (Server.settle r).
Proof. destruct r; [by apply ends_well_ret | apply ends_well_raise]. Qed.

Lemma ends_well_user_id_of {W} (env : Server.Env W) authResult :
  ends_well env (λ _, True) (Server.user_id_of authResult).
Proof.
  unfold Server.user_id_of.
  destruct (Server.user authResult); [by apply ends_well_ret|].
  apply ends_well_raise.
Qed.

Lemma ends_well_bind {W A B} (env : Server.Env W) (P : B → Prop)
    (m : Server.Task W A) (k : A → Server.Task W B) :
  ends_well env (λ _, True) m → (∀ a, ends_well env P (k a)) →
  ends_well env P (Server.bind m k).
Proof.
  intros Hm Hk w. specialize (Hm w).
  unfold Server.bind, Server.result in *.
  destruct (m w) as [[[a | e] w1] t1]; cbn [fst] in *; [|done].
  specialize (Hk a w1). by destruct (k a w1) as [[o w2] t2].
Qed.

Lemma ends_well_call {W A} (env : Server.Env W) c
    (callee : W → Server.Completion A * W) :
  (∀ w e, (callee w).1 = Rejected e → thrown_by_store env e) →
  ends_well env (λ _, True) (Server.call c callee).
Proof.
  intros Hc w. specialize (Hc w). unfold Server.call, Server.result.
  destruct (callee w) as [[a | e] w1]; cbn [fst] in *; [done|].
  right. by apply Hc.
Qed.

Lemma ends_well_verifyAuth {W} (env : Server.Env W) h :
  ends_well env (λ _, True) (Server.verifyAuth env h).
Proof.
  intros w.
  destruct (verifyAuth_settles env h w) as (o & w1 & t & -> & Hr & _).
  unfold Server.result. cbn [fst].
  destruct Hr as [[u ->] | [(c & msg & ->) | (tok & v & _ & -> & _)]];
    [done | done |].
  left. by eexists.
Qed.


(** One step through the body of a route. *)
Ltac ends_well_step :=
  lazymatch goal with
  | |- ends_well _ _ (Server.bind _ _) => apply ends_well_bind; [|intros ?]
  | |- ends_well _ _ (Server.ret _) =>
      apply ends_well_ret;
      first [ exact I
            | cbn [Server.code]; unfold answer_codes;
              rewrite !elem_of_cons; tauto
            | by cbn [Server.code] ]
  | |- ends_well _ _ (Server.settle _) => apply ends_well_settle
  | |- ends_well _ _ (Server.user_id_of _) => apply ends_well_user_id_of
  | |- ends_well _ _ (Server.verifyAuth _ _) => apply ends_well_verifyAuth
  | |- ends_well _ _ (Server.call _ _) =>
      apply ends_well_call;
      first [ by intros ? ? [=]
            | intros ? ? ?; eexists; by eauto 10 ]
  | |- ends_well _ _ (if ?b then _ else _) => destruct b
  | |- ends_well _ _ (match ?x with _ => _ end) => destruct x
  end.


(** Both ends are met: a store that throws an [Error] gets a 500, a store
    that throws [undefined] makes the route itself throw. *)
Example thrown_error_and_thrown_undefined :
  Server.result
    (Server.toggleLike env_store_down (Memory.as_user "tokA" "p1")
       Memory.world0)
  = Resolved {| Server.code := 500;
                Server.json :=
                  Server.error_body "Failed to toggle like: connection lost" |}
  ∧ Server.result
      (Server.toggleLike env_store_throws_undefined
         (Memory.as_user "tokA" "p1") Memory.world0)
    = Rejected (unreadable JsUndefined).
Proof. split; reflexivity. Qed.



(** * The root component *)

(** [checkSession] always ends the loading screen: whatever [getSession]
    does, resolve with a session, with none, with an error, or reject,
    [checkSession] resolves, has asked for the session once, and leaves
    [isCheckingSession] false, the page as it was. *)
Theorem checkSession_ends_loading {W} (env : Env W) w s :
  let run := App.checkSession env (w, s) in
  outcome run = Resolved ()
  ∧ calls run = [CallGetSession]
  ∧ App.isCheckingSession (state_after run) = false
  ∧ App.render (state_after run) ≠ App.Loading
  ∧ App.currentPage (state_after run) = App.currentPage s.
Proof.
  intros run. subst run.
  unfold App.checkSession, async_finally, async_try_catch, async_bind, await,
    App.on_world, App.set, async_ret, outcome, calls, state_after, world,
    App.render.
  cbn [fst snd].
  destruct (getSession env w) as [[r | e] w1]; cbn;
    [destruct (error r); cbn; [|destruct (session (data r)); cbn]|].
  all: split_and!; try done; by repeat case_match.
Qed.

(** A returning user lands in the app: when [getSession] resolves without
    an error and with a session whose token and user id are not empty,
    [checkSession] leaves the app rendering its pages with that token and
    that id. *)
Theorem checkSession_restores_session {W} (env : Env W) w s r w1 x :
  getSession env w = (Resolved r, w1) →
  error r = None →
  session (data r) = Some x →
  access_token x ≠ EmptyString → user_id x ≠ EmptyString →
  let run := App.checkSession env (w, s) in
  App.accessToken (state_after run) = Some (access_token x)
  ∧ App.userId (state_after run) = Some (user_id x)
  ∧ App.render (state_after run)
    = App.Pages (access_token x) (user_id x) (App.currentPage s).
Proof.
  intros Hget Herr Hsess Htok Hid run. subst run.
  unfold App.checkSession, async_finally, async_try_catch, async_bind, await,
    App.on_world, App.set, async_ret, state_after, world, App.render.
  cbn [fst snd]. rewrite Hget. cbn. rewrite Herr, Hsess. cbn.
  destruct (access_token x); [done|]. by destruct (user_id x).
Qed.

Lemma checkSession_restores_session_witness :
  App.render
    (state_after (App.checkSession env_refresh_works ([], App.initial)))
  = App.Pages "tokA" "u1" App.feed.
Proof.
  destruct (checkSession_restores_session env_refresh_works [] App.initial
              {| data := {| session := Some (session_of "tokA") |};
                 error := None |} [] (session_of "tokA"))
    as (_ & _ & H); [reflexivity | reflexivity | reflexivity | done | done |].
  exact H.
Defined.

(** Without a usable session the credentials stay as they were: when
    [getSession] rejects, reports an error, or has no session,
    [checkSession] changes neither the token nor the user id, so a fresh
    app shows the login page. *)
Theorem checkSession_without_session {W} (env : Env W) w s :
  (∀ r w1, getSession env w = (Resolved r, w1) →
           is_Some (error r) ∨ session (data r) = None) →
  let run := App.checkSession env (w, s) in
  App.accessToken (state_after run) = App.accessToken s
  ∧ App.userId (state_after run) = App.userId s
  ∧ (App.accessToken s = None → App.render (state_after run) = App.AuthPage).
Proof.
  intros Hno run. subst run.
  unfold App.checkSession, async_finally, async_try_catch, async_bind, await,
    App.on_world, App.set, async_ret, state_after, world, App.render.
  cbn [fst snd].
  destruct (getSession env w) as [[r | e] w1] eqn:Hget; cbn.
  - destruct (Hno r w1 eq_refl) as [[e He] | Hs].
    + rewrite He. cbn. split_and!; try done. by intros ->.
    + destruct (error r); cbn; [split_and!; try done; by intros ->|].
      rewrite Hs. cbn. split_and!; try done. by intros ->.
  - split_and!; try done. by intros ->.
Qed.

(** The auth client failing on start-up still leads to the login page. *)
Lemma checkSession_without_session_witness :
  App.render
    (state_after (App.checkSession env_session_rejects ([], App.initial)))
  = App.AuthPage.
Proof.
  destruct (checkSession_without_session env_session_rejects [] App.initial)
    as (_ & _ & H).
  - intros r w1 Hget. discriminate Hget.
  - by apply H.
Defined.

(** Logging out clears the session locally only after [signOut] returned:
    when [signOut] resolves, whatever it resolves with, the token and the
    user id are cleared, the page is the feed, and the pages are no longer
    rendered. *)
Theorem handleLogout_clears {W} (env : Env W) w s so w1 :
  signOut env w = (Resolved so, w1) →
  let run := App.handleLogout env (w, s) in
  outcome run = Resolved ()
  ∧ world run = (w1, {| App.accessToken := None; App.userId := None;
                        App.isCheckingSession := App.isCheckingSession s;
                        App.currentPage := App.feed |})
  ∧ (App.isCheckingSession s = false →
     App.render (state_after run) = App.AuthPage).
Proof.
  intros Hso run. subst run.
  unfold App.handleLogout, async_bind, await, App.on_world, App.set,
    outcome, world, state_after, App.render.
  cbn [fst snd]. rewrite Hso. cbn. split_and!; try done. by intros ->.
Qed.

Lemma handleLogout_clears_witness :
  App.render
    (state_after (App.handleLogout env_refresh_works ([], logged_in)))
  = App.AuthPage.
Proof.
  destruct (handleLogout_clears env_refresh_works [] logged_in
              {| signout_error := None |} [] eq_refl) as (_ & _ & H).
  by apply H.
Defined.

(** When [signOut] throws, the logout does not happen locally either:
    [handleLogout] rejects with that exception and the token, the user id
    and the page stay as they were, so the user still sees the pages. *)
Theorem handleLogout_rejected_keeps_session {W} (env : Env W) w s e w1 :
  signOut env w = (Rejected e, w1) →
  let run := App.handleLogout env (w, s) in
  outcome run = Rejected (Escaped CallSignOut e)
  ∧ state_after run = s
  ∧ App.render (state_after run) = App.render s.
Proof.
  intros Hso run. subst run.
  unfold App.handleLogout, async_bind, await, App.on_world, App.set,
    outcome, world, state_after.
  cbn [fst snd]. by rewrite Hso.
Qed.

Lemma handleLogout_rejected_keeps_session_witness :
  App.render
    (state_after (App.handleLogout env_signOut_rejects ([], logged_in)))
  = App.Pages "tokA" "u1" App.profile.
Proof.
  destruct (handleLogout_rejected_keeps_session env_signOut_rejects []
              logged_in (Error "storage unavailable") [] eq_refl)
    as (_ & _ & H).
  by rewrite H.
Defined.

(** The token and the user id travel together: every handler of [App] that
    touches one touches the other, so a state in which both are there or
    both are missing stays one under [checkSession], [handleLogout],
    [refreshAccessToken], the auth listener and navigation, and
    [handleAuthSuccess] produces one from any state. *)
Theorem credentials_stay_paired {W} (env : Env W) w s :
  paired s →
  paired (state_after (App.checkSession env (w, s)))
  ∧ paired (state_after (App.handleLogout env (w, s)))
  ∧ paired (state_after (App.refreshAccessToken env (w, s)))
  ∧ (∀ event sess, paired (App.onAuthStateChange event sess s))
  ∧ (∀ page, paired (App.handleNavigate page s))
  ∧ (∀ token id s', paired (App.handleAuthSuccess token id s')).
Proof.
  intros Hs. unfold paired in *.
  unfold App.checkSession, App.refreshAccessToken, App.handleLogout,
    async_finally, async_try_catch, async_forget, async_bind, await,
    App.on_world, App.set, async_ret, state_after, world,
    App.handleNavigate, App.handleAuthSuccess,
    App.setIsCheckingSession, App.setAccessToken, App.setUserId,
    App.setCurrentPage.
  cbn [fst snd]. split_and!.
  - destruct (getSession env w) as [[r | e] w1]; cbn; [|done].
    destruct (error r); cbn; [done|].
    destruct (session (data r)); cbn; first [done | by split].
  - destruct (signOut env w) as [[so | e] w1]; cbn; first [done | by split].
  - destruct (refreshSession env w) as [[r | e] w1]; cbn.
    + destruct (error r); cbn.
      * destruct (signOut env w1) as [[so | e] w2]; cbn; first [done | by split].
      * destruct (session (data r)); cbn; first [done | by split].
    + destruct (signOut env w1) as [[so | e'] w2]; cbn; first [done | by split].
  - intros event sess. unfold App.onAuthStateChange.
    repeat case_match; by cbn.
  - done.
  - done.
Qed.

Lemma credentials_stay_paired_witness :
  paired (state_after (App.handleLogout env_signOut_rejects ([], logged_in))).
Proof.
  destruct (credentials_stay_paired env_signOut_rejects [] logged_in)
    as (_ & H & _).
  - by split.
  - exact H.
Defined.

(** [refreshAccessToken] never rejects, and it returns a token exactly when
    the refresh resolved without an error and with a session, the token
    being that session's.  It calls [signOut] exactly when the refresh
    reported an error or threw. *)
Theorem refreshAccessToken_result {W} (env : Env W) w s :
  let run := App.refreshAccessToken env (w, s) in
  ∃ v, outcome run = Resolved v
    ∧ (∀ tok, v = Some tok ↔
         ∃ r w1 x, refreshSession env w = (Resolved r, w1)
                   ∧ error r = None ∧ session (data r) = Some x
                   ∧ access_token x = tok)
    ∧ (signOut_calls (calls run) = 1%nat ↔
         (∃ e w1, refreshSession env w = (Rejected e, w1))
         ∨ (∃ r w1, refreshSession env w = (Resolved r, w1)
                    ∧ is_Some (error r))).
Proof.
  intros run. subst run.
  unfold App.refreshAccessToken, App.handleLogout, async_try_catch,
    async_forget, async_bind, await, App.on_world, App.set, async_ret,
    outcome, calls, signOut_calls.
  cbn [fst snd].
  destruct (refreshSession env w) as [[r | e] w1]; cbn.
  - destruct (error r) as [err|] eqn:Herr; cbn.
    + destruct (signOut env w1) as [[so | e] w2]; cbn;
        (eexists; split; [reflexivity|]; split;
         [intros tok; split; [done | intros (? & ? & ? & [= <- <-] & ? & _); congruence]
         | split; [intros _; right; by eauto | done]]).
    + destruct (session (data r)) as [x|] eqn:Hx; cbn;
        (eexists; split; [reflexivity|]; split;
         [intros tok; split;
          [intros [= <-] || done; by eauto 10
          | intros (? & ? & ? & [= <- <-] & ? & ? & ?); congruence]
         | split; [done | intros [(? & ? & [=]) | (? & ? & [= <- <-] & [? ?])];
                          congruence]]).
  - destruct (signOut env w1) as [[so | e'] w2]; cbn;
      (eexists; split; [reflexivity|]; split;
       [intros tok; split; [done | by intros (? & ? & ? & [=] & _)]
       | split; [intros _; left; by eauto | done]]).
Qed.

(** Where the wrapper signs the user out, [App] does not: when the refresh
    resolves with neither an error nor a session, [refreshAccessToken]
    returns [null] after that one call, and the state is as it was. *)
Theorem refreshAccessToken_without_session {W} (env : Env W) w s r w1 :
  refreshSession env w = (Resolved r, w1) →
  error r = None → session (data r) = None →
  App.refreshAccessToken env (w, s)
  = (Resolved None, (w1, s), [CallRefreshSession]).
Proof.
  intros Hrefresh Herr Hsess.
  unfold App.refreshAccessToken, async_try_catch, async_bind, await,
    App.on_world, async_ret.
  cbn [fst snd]. rewrite Hrefresh. cbn. by rewrite Herr, Hsess.
Qed.

Lemma refreshAccessToken_without_session_witness :
  calls (App.refreshAccessToken env_refresh_fails ([], logged_in))
    = [CallRefreshSession]
  ∧ signOut_calls
      (calls (fetchWithAuth env_refresh_fails "/posts" demo_options
                [responds 401])) = 1%nat.
Proof.
  split; [|reflexivity].
  by rewrite (refreshAccessToken_without_session env_refresh_fails []
                logged_in {| data := {| session := None |}; error := None |}
                [] eq_refl eq_refl eq_refl).
Defined.

(** * Relative dates *)

Lemma div_ltb a c n :
  0 < c → (a `div` c <? n) = (a <? n * c).
Proof.
  intros Hc. destruct (Z.ltb_spec a (n * c)) as [Hlt | Hge].
  - apply Z.ltb_lt, Z.div_lt_upper_bound; lia.
  - apply Z.ltb_ge, Z.div_le_lower_bound; lia.
Qed.

(** The two post cards agree from the first minute on: for a post at least
    a minute old the feed's card and the social card print the same label,
    the same number of minutes, hours or days, or the same date. *)
Theorem formatDate_agree (toLocaleDateString : Z → string) now date :
  60000 ≤ now - date →
  formatDate toLocaleDateString now date
  = formatDate_social toLocaleDateString now date.
Proof.
  intros Hold. unfold formatDate, formatDate_social. cbv zeta.
  set (d := now - date) in *.
  rewrite !Z.div_div by lia.
  rewrite !div_ltb by lia.
  change (1000 * 60) with 60000. change (1000 * 3600) with 3600000.
  change (1000 * 86400) with 86400000.
  replace (d <? 1 * 60000) with false by (symmetry; apply Z.ltb_ge; lia).
  replace (d <? 60 * 1000) with false by (symmetry; apply Z.ltb_ge; lia).
  change (60 * 60000) with 3600000. change (3600 * 1000) with 3600000.
  change (24 * 3600000) with 86400000. change (86400 * 1000) with 86400000.
  change (7 * 86400000) with 604800000. change (604800 * 1000) with 604800000.
  reflexivity.
Qed.

(** An hour and a half, on both cards. *)
Lemma formatDate_agree_witness :
  formatDate (λ _, "1 Jan") 5400000 0 = "1j"
  ∧ formatDate_social (λ _, "1 Jan") 5400000 0 = "1j".
Proof.
  rewrite <- (formatDate_agree (λ _, "1 Jan") 5400000 0) by lia.
  split; reflexivity.
Defined.

(** The feed's card never prints a number out of range: its label is
    [Baru saja] for anything younger than a minute (a date in the future
    included), 1 to 59 minutes, 1 to 23 hours, 1 to 6 days, or, from seven
    days on, the date. *)
Theorem formatDate_labels (toLocaleDateString : Z → string) now date :
  let label := formatDate toLocaleDateString now date in
  let age := now - date in
  (age < 60000 ∧ label = "Baru saja")
  ∨ (∃ n, 1 ≤ n ≤ 59 ∧ n = age `div` 60000 ∧ label = pretty n ++ "m")
  ∨ (∃ n, 1 ≤ n ≤ 23 ∧ n = age `div` 3600000 ∧ label = pretty n ++ "j")
  ∨ (∃ n, 1 ≤ n ≤ 6 ∧ n = age `div` 86400000 ∧ label = pretty n ++ "h")
  ∨ (604800000 ≤ age ∧ label = toLocaleDateString date).
Proof.
  intros label age. subst label. unfold formatDate. cbv zeta. fold age.
  rewrite !div_ltb by lia.
  destruct (Z.ltb_spec age (1 * 60000)) as [H1 | H1]; [left; split; [lia | done]|].
  right.
  destruct (Z.ltb_spec age (60 * 60000)) as [H2 | H2].
  { left. eexists. split_and!; [| | reflexivity | reflexivity].
    - apply Z.div_le_lower_bound; lia.
    - apply Z.lt_succ_r, Z.div_lt_upper_bound; lia. }
  right.
  destruct (Z.ltb_spec age (24 * 3600000)) as [H3 | H3].
  { left. eexists. split_and!; [| | reflexivity | reflexivity].
    - apply Z.div_le_lower_bound; lia.
    - apply Z.lt_succ_r, Z.div_lt_upper_bound; lia. }
  right.
  destruct (Z.ltb_spec age (7 * 86400000)) as [H4 | H4].
  { left. eexists. split_and!; [| | reflexivity | reflexivity].
    - apply Z.div_le_lower_bound; lia.
    - apply Z.lt_succ_r, Z.div_lt_upper_bound; lia. }
  right. split; [lia | done].
Qed.

(** * Deleting a post *)

Lemma string_app_assoc (a b c : string) : (a ++ b) ++ c = a ++ (b ++ c).
Proof.
  induction a as [|x a IH]; [done|].
  change ((String x a ++ b) ++ c) with (String x ((a ++ b) ++ c)).
  by rewrite IH.
Qed.

Lemma disciplined_delete prefix field key m :
  disciplined prefix field m → disciplined prefix field (delete key m).
Proof.
  intros Hd k v [_ Hk]%lookup_delete_Some. by apply Hd.
Qed.

(** Under the key discipline the keys the route rebuilds from the records
    are the keys the records are filed under. *)
Lemma rebuilt_keys prefix field m :
  disciplined prefix field m →
  Server.map_or_throw
    (λ v, match get_prop v field with
          | Resolved x => Resolved (prefix ++ to_string x)
          | Rejected e => Rejected e
          end)
    (Memory.by_prefix prefix m)
  = Resolved
      (map_to_list (filter (λ kv, String.prefix prefix kv.1 = true) m)).*1.
Proof.
  intros Hd. unfold Memory.by_prefix.
  assert (Hall : ∀ k v,
    (k, v) ∈ map_to_list (filter (λ kv, String.prefix prefix kv.1 = true) m) →
    ∃ id, k = prefix ++ id ∧ get_prop v field = Resolved (JsString id)).
  { intros k v [Hkv Hp]%elem_of_map_to_list%map_lookup_filter_Some.
    by apply Hd. }
  induction (map_to_list _) as [|[k v] kvs IH]; [done|].
  cbn [fmap list_fmap Server.map_or_throw fst snd].
  destruct (Hall k v) as (id & -> & ->); [by left|].
  cbn [to_string]. rewrite IH; [done|].
  intros k' v' Hin. apply Hall. by right.
Qed.

Lemma map_or_throw_ext {A B} (f g : A → Reply B) xs :
  (∀ x, f x = g x) → Server.map_or_throw f xs = Server.map_or_throw g xs.
Proof.
  intros Hfg. induction xs as [|x xs IH]; [done|].
  cbn [Server.map_or_throw]. by rewrite Hfg, IH.
Qed.

Lemma lookup_foldr_delete_None (m : gmap string JsValue) keys k :
  m !! k = None → foldr delete m keys !! k = None.
Proof.
  intros Hk. destruct (decide (k ∈ keys)).
  - by apply lookup_foldr_delete.
  - by rewrite lookup_foldr_delete_not_elem_of.
Qed.

Lemma filed_under_prefix prefix (m : gmap string JsValue) k :
  k ∈ (map_to_list (filter (λ kv, String.prefix prefix kv.1 = true) m)).*1
  ↔ is_Some (m !! k) ∧ String.prefix prefix k = true.
Proof.
  rewrite list_elem_of_fmap. split.
  - intros ([k' v] & -> & [Hkv Hp]%elem_of_map_to_list%map_lookup_filter_Some).
    by eauto.
  - intros [[v Hv] Hp]. exists (k, v). split; [done|].
    apply elem_of_map_to_list, map_lookup_filter_Some. by split.
Qed.

Lemma like_prefix_key postId s :
  "like:" ++ postId ++ ":" ++ s = like_prefix postId ++ s.
Proof. unfold like_prefix. by rewrite !string_app_assoc. Qed.

Lemma comment_prefix_key postId s :
  "comment:" ++ postId ++ ":" ++ s = comment_prefix postId ++ s.
Proof. unfold comment_prefix. by rewrite !string_app_assoc. Qed.

Lemma post_key_not_filed postId :
  String.prefix (like_prefix postId) ("post:" ++ postId) = false
  ∧ String.prefix (comment_prefix postId) ("post:" ++ postId) = false.
Proof. split; reflexivity. Qed.

(** The monad laws again, projected on the reply and the world: used where
    a route is long enough for the full triples to grow out of hand. *)
Lemma bind_resolved_1 {W A B} (m : Server.Task W A) (k : A → Server.Task W B)
    w a w1 t1 :
  m w = (Resolved a, w1, t1) → (Server.bind m k w).1 = (k a w1).1.
Proof.
  intros H. unfold Server.bind. rewrite H. by destruct (k a w1) as [[o w2] t2].
Qed.

Lemma call_resolved_1 {W A B} c (callee : W → Server.Completion A * W)
    (k : A → Server.Task W B) w a w1 :
  callee w = (Resolved a, w1) →
  (Server.bind (Server.call c callee) k w).1 = (k a w1).1.
Proof.
  intros H. apply (bind_resolved_1 _ k w a w1 [c]).
  unfold Server.call. by rewrite H.
Qed.

Lemma ret_bind_1 {W A B} (a : A) (k : A → Server.Task W B) w :
  (Server.bind (Server.ret a) k w).1 = (k a w).1.
Proof. by apply (bind_resolved_1 _ k w a w []). Qed.

Lemma try_catch_resolved_1 {W A} (m : Server.Task W A) h w a w1 :
  (m w).1 = (Resolved a, w1) → (Server.try_catch m h w).1 = (Resolved a, w1).
Proof.
  unfold Server.try_catch. destruct (m w) as [[[a' | e] w2] t2]; [done|].
  intros H. discriminate H.
Qed.

(** What the store is after the author has deleted a post, under the key
    discipline for its likes and comments. *)
Lemma deletePost_memory sessions tok u postId post w :
  sessions !! tok = Some u → token_like tok →
  Memory.store w !! ("post:" ++ postId) = Some post →
  get_prop post "userId" = Resolved (JsString (Server.uid u)) →
  disciplined (like_prefix postId) "userId" (Memory.store w) →
  disciplined (comment_prefix postId) "id" (Memory.store w) →
  let m := delete ("post:" ++ postId) (Memory.store w) in
  let filed prefix :=
    (map_to_list (filter (λ kv, String.prefix prefix kv.1 = true) m)).*1 in
  let run :=
    Server.deletePost (Memory.env sessions) (Memory.as_user tok postId) w in
  Server.result run
    = Resolved {| Server.code := 200;
                  Server.json :=
                    JsObject [("success", JsBool true);
                              ("message", JsString "Post berhasil dihapus")] |}
  ∧ Memory.store (Server.after run)
    = foldr delete m
        (filed (like_prefix postId) ++ filed (comment_prefix postId))%list.
Proof.
  intros Hu Htok Hpost Howner Hlikes Hcomments m filed run. subst run.
  assert (Htruthy : truthy post = true) by (by destruct post).
  assert (Hl :
    Server.map_or_throw
      (λ l, match get_prop l "userId" with
            | Resolved v => Resolved ("like:" ++ postId ++ ":" ++ to_string v)
            | Rejected e => Rejected e
            end) (Memory.by_prefix ("like:" ++ postId ++ ":") m)
    = Resolved (filed (like_prefix postId))).
  { etrans; [|apply (rebuilt_keys (like_prefix postId) "userId" m);
                by apply disciplined_delete].
    apply map_or_throw_ext. intros x.
    destruct (get_prop x "userId"); [by rewrite like_prefix_key | done]. }
  assert (Hc :
    Server.map_or_throw
      (λ c, match get_prop c "id" with
            | Resolved v => Resolved ("comment:" ++ postId ++ ":" ++ to_string v)
            | Rejected e => Rejected e
            end) (Memory.by_prefix ("comment:" ++ postId ++ ":") m)
    = Resolved (filed (comment_prefix postId))).
  { etrans; [|apply (rebuilt_keys (comment_prefix postId) "id" m);
                by apply disciplined_delete].
    apply map_or_throw_ext. intros x.
    destruct (get_prop x "id"); [by rewrite comment_prefix_key | done]. }
  revert Hl Hc.
  generalize (filed (like_prefix postId)) (filed (comment_prefix postId)).
  intros lk ck Hl Hc. clear filed Hlikes Hcomments.
  enough (H : ∃ w',
    (Server.deletePost (Memory.env sessions) (Memory.as_user tok postId) w).1
      = (Resolved {| Server.code := 200;
                     Server.json :=
                       JsObject [("success", JsBool true);
                                 ("message", JsString "Post berhasil dihapus")] |},
         w')
    ∧ Memory.store w' = foldr delete m (lk ++ ck)%list).
  { destruct H as (w' & H & Hw'). unfold Server.result, Server.after.
    by rewrite H. }
  destruct (lk ++ ck)%list as [|key keys] eqn:Hkeys.
  all: eexists; split;
    [apply try_catch_resolved_1; unfold Memory.as_user;
     cbn [Server.authorization Server.param_id];
     rewrite (bind_resolved_1 _ _ _ _ _ _ (memory_verifyAuth _ _ _ w Hu Htok));
     cbn [Server.error];
     rewrite (call_resolved_1 _ _ _ _ post w) by (cbn; by rewrite Hpost);
     rewrite Htruthy; cbn [negb]; rewrite Howner;
     cbn [Server.settle Server.user_id_of Server.user]; rewrite !ret_bind_1;
     cbn [is_string]; rewrite String.eqb_refl; cbn [negb];
     erewrite (call_resolved_1 (Server.KvDel _)); [|reflexivity];
     erewrite (call_resolved_1 (Server.KvGetByPrefix _)); [|reflexivity];
     erewrite (call_resolved_1 (Server.KvGetByPrefix _)); [|reflexivity];
     cbn [Memory.store Memory.with_store]; fold m;
     rewrite Hl; cbn [Server.settle]; rewrite ret_bind_1;
     rewrite Hc; cbn [Server.settle]; rewrite ret_bind_1;
     cbv zeta; rewrite Hkeys
    |].
  - rewrite ret_bind_1. reflexivity.
  - reflexivity.
  - erewrite (call_resolved_1 (Server.KvMdel _)); [|reflexivity]. reflexivity.
  - reflexivity.
Qed.

(** Deleting a post takes its likes and comments with it: when the author
    deletes a post whose likes and comments are filed under the key
    discipline, the answer is a success, and the store afterwards holds
    neither the post nor any key under its like or comment prefix, while
    every other key holds what it held. *)
Theorem deletePost_cascades sessions tok u postId post w :
  sessions !! tok = Some u → token_like tok →
  Memory.store w !! ("post:" ++ postId) = Some post →
  get_prop post "userId" = Resolved (JsString (Server.uid u)) →
  disciplined (like_prefix postId) "userId" (Memory.store w) →
  disciplined (comment_prefix postId) "id" (Memory.store w) →
  let run :=
    Server.deletePost (Memory.env sessions) (Memory.as_user tok postId) w in
  let store' := Memory.store (Server.after run) in
  Server.result run
    = Resolved {| Server.code := 200;
                  Server.json :=
                    JsObject [("success", JsBool true);
                              ("message", JsString "Post berhasil dihapus")] |}
  ∧ store' !! ("post:" ++ postId) = None
  ∧ (∀ k, String.prefix (like_prefix postId) k = true
          ∨ String.prefix (comment_prefix postId) k = true →
          store' !! k = None)
  ∧ (∀ k, k ≠ "post:" ++ postId →
          String.prefix (like_prefix postId) k = false →
          String.prefix (comment_prefix postId) k = false →
          store' !! k = Memory.store w !! k).
Proof.
  intros Hu Htok Hpost Howner Hlikes Hcomments run store'.
  destruct (deletePost_memory sessions tok u postId post w
              Hu Htok Hpost Howner Hlikes Hcomments) as [Hres Hstore].
  subst store' run. rewrite Hstore. split_and!.
  - exact Hres.
  - apply lookup_foldr_delete_None, lookup_delete_eq.
  - intros k Hk.
    destruct (delete ("post:" ++ postId) (Memory.store w) !! k) as [v|] eqn:Hv;
      [|by apply lookup_foldr_delete_None].
    apply lookup_foldr_delete, elem_of_app.
    destruct Hk as [Hk | Hk]; [left | right];
      apply filed_under_prefix; by eauto.
  - intros k Hpost' Hl Hc.
    rewrite lookup_foldr_delete_not_elem_of, lookup_delete_ne; [done.. |].
    intros [Hin | Hin]%elem_of_app;
      apply filed_under_prefix in Hin as [_ Hp]; congruence.
Qed.

Lemma world1_disciplined :
  disciplined (like_prefix "p1") "userId" (Memory.store world1)
  ∧ disciplined (comment_prefix "p1") "id" (Memory.store world1).
Proof.
  split; intros k v Hkv Hp; unfold world1, Memory.world0 in Hkv;
    cbn [Memory.store] in Hkv;
    repeat (apply lookup_insert_Some in Hkv as [[<- <-] | [_ Hkv]];
            [first [discriminate Hp | eexists; split; reflexivity]|]);
    apply lookup_singleton_Some in Hkv as [<- <-]; discriminate Hp.
Qed.

(** The author deletes the post, and the like and the comment go too. *)
Lemma deletePost_cascades_witness :
  let store' :=
    Memory.store
      (Server.after
         (Server.deletePost (Memory.env Memory.sessions)
            (Memory.as_user "tokA" "p1") world1)) in
  store' !! "post:p1" = None
  ∧ store' !! "like:p1:seed-user-2" = None
  ∧ store' !! "comment:p1:c1" = None
  ∧ store' !! "user:seed-user-2" = Some (Memory.profile Memory.siti).
Proof.
  intros store'.
  destruct (deletePost_cascades Memory.sessions "tokA" Memory.budi "p1"
              (Memory.post_by Memory.budi "p1" "Sunset di Jogja") world1)
    as (_ & Hpost & Hfiled & Hrest).
  - reflexivity.
  - by split.
  - reflexivity.
  - reflexivity.
  - apply world1_disciplined.
  - apply world1_disciplined.
  - split_and!.
    + exact Hpost.
    + apply Hfiled. by left.
    + apply Hfiled. by right.
    + subst store'. rewrite Hrest; [reflexivity | discriminate | reflexivity..].
Defined.

(** ** The like route keeps the discipline *)

Lemma prefix_up_to_separator c q p rest :
  free_of c q = true → free_of c p = true →
  String.prefix (q ++ String c EmptyString) (p ++ String c rest) = true →
  q = p.
Proof.
  revert p. induction q as [|x q IH]; intros [|y p]; cbn [free_of].
  - done.
  - intros _ [Hy _]%andb_prop.
    change (String.prefix (String c EmptyString) (String y (p ++ String c rest))
            = true → EmptyString = String y p).
    cbn [String.prefix]. destruct (ascii_dec c y) as [<- | _]; [|done].
    by rewrite Ascii.eqb_refl in Hy.
  - intros [Hx _]%andb_prop _.
    change (String.prefix (String x (q ++ String c EmptyString)) (String c rest)
            = true → String x q = EmptyString).
    cbn [String.prefix]. destruct (ascii_dec x c) as [-> | _]; [|done].
    by rewrite Ascii.eqb_refl in Hx.
  - intros [_ Hq]%andb_prop [_ Hp]%andb_prop.
    change (String.prefix (String x (q ++ String c EmptyString))
              (String y (p ++ String c rest)) = true → String x q = String y p).
    cbn [String.prefix]. destruct (ascii_dec x y) as [-> | _]; [|done].
    intros Hpre. by rewrite (IH p Hq Hp Hpre).
Qed.

Lemma disciplined_insert_other prefix field key v m :
  String.prefix prefix key = false →
  disciplined prefix field m → disciplined prefix field (<[key := v]> m).
Proof.
  intros Hkey Hd k v' [[<- <-] | [_ Hk]]%lookup_insert_Some Hp;
    [congruence | by apply Hd].
Qed.

(** The like route files what it writes under the discipline the delete
    route relies on: for post ids without a colon, a store whose likes and
    comments are filed under the discipline is one again after any like or
    unlike. *)
Theorem toggleLike_keeps_discipline sessions tok u postId post q w :
  sessions !! tok = Some u → token_like tok →
  Memory.store w !! ("post:" ++ postId) = Some post → truthy post = true →
  free_of ":" postId = true → free_of ":" q = true →
  disciplined (like_prefix q) "userId" (Memory.store w) →
  disciplined (comment_prefix q) "id" (Memory.store w) →
  let store' :=
    Memory.store
      (Server.after
         (Server.toggleLike (Memory.env sessions)
            (Memory.as_user tok postId) w)) in
  disciplined (like_prefix q) "userId" store'
  ∧ disciplined (comment_prefix q) "id" store'.
Proof.
  intros Hu Htok Hpost Htruthy Hfree Hq Hlikes Hcomments store'.
  subst store'.
  rewrite (toggleLike_memory _ _ _ _ _ _ Hu Htok Hpost Htruthy).
  unfold Server.after.
  destruct (holds _ _); cbn [fst snd Memory.store Memory.with_store].
  - split; by apply disciplined_delete.
  - split; [|by apply disciplined_insert_other].
    intros k v [[<- <-] | [_ Hk]]%lookup_insert_Some Hp; [|by apply Hlikes].
    assert (q = postId) as ->.
    { apply (prefix_up_to_separator ":" q postId (Server.uid u) Hq Hfree).
      unfold like_prefix, like_key in Hp. exact Hp. }
    exists (Server.uid u). split; [|reflexivity].
    unfold like_key. apply like_prefix_key.
Qed.

Lemma toggleLike_keeps_discipline_witness :
  disciplined (like_prefix "p1") "userId"
    (Memory.store
       (Server.after
          (Server.toggleLike (Memory.env Memory.sessions)
             (Memory.as_user "tokA" "p1") world1))).
Proof.
  destruct (toggleLike_keeps_discipline Memory.sessions "tokA" Memory.budi
              "p1" (Memory.post_by Memory.budi "p1" "Sunset di Jogja") "p1"
              world1) as [H _].
  - reflexivity.
  - by split.
  - reflexivity.
  - reflexivity.
  - reflexivity.
  - reflexivity.
  - apply world1_disciplined.
  - apply world1_disciplined.
  - exact H.
Defined.

(** * What a 401 means *)

Lemma bind_rejected {W A B} (m : Server.Task W A) (k : A → Server.Task W B)
    w e w1 t1 :
  m w = (Rejected e, w1, t1) → Server.bind m k w = (Rejected e, w1, t1).
Proof. intros H. unfold Server.bind. by rewrite H. Qed.

(** A route that verifies first and answers 401 on an error, and whose
    body answers anything but 401 once the request is verified. *)
Lemma verified_or_401 {W} (env : Server.Env W) h
    (body : Server.AuthResult → Server.Task W Server.HttpResponse) text w :
  (∀ u, ends_well env (λ resp, Server.code resp ≠ 401)
          (body {| Server.user := Some u; Server.error := None |})) →
  (∀ c msg w1,
     body (Server.failed (String c msg)) w1
     = (Resolved {| Server.code := 401;
                    Server.json := Server.error_body (String c msg) |},
        w1, [])) →
  let route :=
    Server.try_catch (Server.bind (Server.verifyAuth env h) body)
      (λ e, Server.bind (Server.settle (Server.message_of e))
              (λ m, Server.ret
                      {| Server.code := 500;
                         Server.json := Server.error_body (text ++ m) |})) in
  (∃ resp, Server.result (route w) = Resolved resp ∧ Server.code resp = 401)
  ↔ (∃ r, Server.result (Server.verifyAuth env h w) = Resolved r
          ∧ is_Some (Server.error r)).
Proof.
  intros Hpassed Hfailed route. subst route.
  destruct (verifyAuth_settles env h w) as (o & w1 & t & Heq & Hr & _).
  unfold Server.try_catch.
  destruct Hr as [[u ->] | [(c & msg & ->) | (tok & v & _ & -> & _)]].
  - rewrite (bind_resolved _ _ _ _ _ _ Heq), Heq.
    specialize (Hpassed u w1).
    unfold Server.result, Server.after, Server.log in *.
    destruct (body _ w1) as [[[resp | e] w2] t2]; cbn [fst snd] in *.
    + split; [by intros (? & [= <-] & ?) | by intros (? & [= <-] & [? [=]])].
    + rewrite catch_500. cbn [fst snd].
      split; [|by intros (? & [= <-] & [? [=]])].
      destruct (Server.message_of e); by intros (? & [= <-] & ?).
  - rewrite (bind_resolved _ _ _ _ _ _ Heq), Heq, Hfailed.
    unfold Server.result. cbn [fst snd].
    split; intros _; eexists; (split; [reflexivity|]); [by eexists | done].
  - rewrite (bind_rejected _ _ _ _ _ _ Heq), Heq, catch_500.
    unfold Server.result, unreadable. cbn [fst snd Server.message_of].
    split; [by intros (? & [= <-] & ?) | by intros (? & [=] & ?)].
Qed.

(** The routes that change the store answer 401 for one reason only: the
    status is 401 exactly when [verifyAuth] returned an error.  A missing
    post, a foreign post, a store that throws never give the status that
    makes the client refresh its session. *)
Theorem status_401_iff_unverified {W} (env : Server.Env W) req w :
  Forall (λ route : Server.Request → Server.Task W Server.HttpResponse,
            (∃ resp, Server.result (route req w) = Resolved resp
                     ∧ Server.code resp = 401)
            ↔ (∃ r, Server.result
                      (Server.verifyAuth env (Server.authorization req) w)
                    = Resolved r ∧ is_Some (Server.error r)))
    [Server.deletePost env; Server.toggleLike env; Server.toggleFollow env].
Proof.
  repeat apply Forall_cons_2; [| | |apply Forall_nil_2].
  - unfold Server.deletePost.
    apply (verified_or_401 env); [intros u; cbn [Server.error] | done].
    cbv zeta. repeat ends_well_step.
  - unfold Server.toggleLike.
    apply (verified_or_401 env); [intros u; cbn [Server.error] | done].
    cbv zeta. repeat ends_well_step.
  - unfold Server.toggleFollow.
    apply (verified_or_401 env); [intros u; cbn [Server.error] | done].
    cbv zeta. repeat ends_well_step.
Qed.
